(** * Ristretto calibration: src/caffe/ristretto/quantization.cpp

    A shallow embedding of the class [Quantization] and of the properties its
    specification states about it.

    Conventions of the embedding.
    - A C++ [int] is a [Z]; an [int] subtraction whose exact result leaves the
      32-bit range is undefined behaviour.
    - [float] and [double] values are real numbers (exact arithmetic); the
      special values that [log2] and [ceil] produce at and below zero are
      kept ([double]).
    - A [std::vector] is a [list]; [operator[]] outside the vector is
      undefined behaviour.
    - A call that ends the process ([LOG(FATAL)], [CHECK], [...OrDie]) is the
      outcome [Fatal]; undefined behaviour is the outcome [Undefined].
    - Log lines ([LOG(INFO)]) are not part of the model. *)

From Stdlib Require Import Reals Lra Lia ZArith String Ascii.
From stdpp Require Import base option list strings.

(** ** Outcomes of C++ code *)

Inductive outcome (A : Type) : Type :=
  | Done (a : A)
  | Fatal (msg : string)
  | Undefined.

Arguments Done {A} a.
Arguments Fatal {A} msg.
Arguments Undefined {A}.

#[global] Instance outcome_ret : MRet outcome := @Done.

#[global] Instance outcome_bind : MBind outcome := fun A B f m =>
  match m with
  | Done a => f a
  | Fatal msg => Fatal msg
  | Undefined => Undefined
  end.

Definition is_Fatal {A} (o : outcome A) : Prop :=
  match o with Fatal _ => True | _ => False end.

(** ** The C++ fragments the class relies on *)

Definition INT_MIN : Z := (- 2 ^ 31)%Z.
Definition INT_MAX : Z := (2 ^ 31 - 1)%Z.

Definition in_int (z : Z) : Prop := (INT_MIN ≤ z ≤ INT_MAX)%Z.

#[global] Instance in_int_dec z : Decision (in_int z).
Proof. unfold in_int. apply _. Defined.

(** [a - b] on [int]. *)
Definition int_sub (a b : Z) : outcome Z :=
  if decide (in_int (a - b)) then Done (a - b)%Z else Undefined.

(** [std::string::npos] and [s.find(str)]: the position of the first
    occurrence of [str] in [s]. *)
Definition npos : option nat := None.

Definition find (s str : string) : option nat := index 0 str s.

(** [s.find(str) != string::npos] *)
Definition found (s str : string) : bool := bool_decide (find s str ≠ npos).

(** [std::find(v.begin(), v.end(), x) - v.begin()]: the position of the first
    element equal to [x], the size of [v] when there is none. *)
Fixpoint std_find (v : list string) (x : string) : nat :=
  match v with
  | [] => 0
  | y :: v' => if decide (y = x) then 0 else S (std_find v' x)
  end.

(** [v[pos]] *)
Definition vec_at {A} (v : list A) (pos : nat) : outcome A :=
  match v !! pos with
  | Some x => Done x
  | None => Undefined
  end.

(** ** Network descriptions (the protobuf messages the class edits)

    An optional field that is not set is [None].  The fields the class never
    touches are kept as text ([layer_rest], [net_rest], [quantization_rest],
    [state_rest]). *)

Record QuantizationParameter := {
  fl_params : option Z;
  bw_params : option Z;
  fl_layer_in : option Z;
  bw_layer_in : option Z;
  fl_layer_out : option Z;
  bw_layer_out : option Z;
  quantization_rest : list (string * string)
}.

Record LayerParameter := {
  name : string;
  type : string;
  quantization_param : option QuantizationParameter;
  layer_rest : list (string * string)
}.

Inductive Phase := TRAIN | TEST.

Record NetState := {
  phase : option Phase;
  state_rest : list (string * string)
}.

Record NetParameter := {
  state : option NetState;
  layer : list LayerParameter;
  net_rest : list (string * string)
}.

Definition empty_quantization_param : QuantizationParameter :=
  {| fl_params := None; bw_params := None; fl_layer_in := None;
     bw_layer_in := None; fl_layer_out := None; bw_layer_out := None;
     quantization_rest := [] |}.

(** [l->mutable_quantization_param()]: the submessage, created empty when the
    layer has none. *)
Definition mutable_quantization_param (l : LayerParameter) : QuantizationParameter :=
  default empty_quantization_param (quantization_param l).

Definition with_quantization_param (qp : QuantizationParameter) (l : LayerParameter)
  : LayerParameter :=
  {| name := name l; type := type l; quantization_param := Some qp;
     layer_rest := layer_rest l |}.

Definition set_type (v : string) (l : LayerParameter) : LayerParameter :=
  {| name := name l; type := v; quantization_param := quantization_param l;
     layer_rest := layer_rest l |}.

Definition set_fl_params (v : Z) (l : LayerParameter) : LayerParameter :=
  let qp := mutable_quantization_param l in
  with_quantization_param
    {| fl_params := Some v; bw_params := bw_params qp;
       fl_layer_in := fl_layer_in qp; bw_layer_in := bw_layer_in qp;
       fl_layer_out := fl_layer_out qp; bw_layer_out := bw_layer_out qp;
       quantization_rest := quantization_rest qp |} l.

Definition set_bw_params (v : Z) (l : LayerParameter) : LayerParameter :=
  let qp := mutable_quantization_param l in
  with_quantization_param
    {| fl_params := fl_params qp; bw_params := Some v;
       fl_layer_in := fl_layer_in qp; bw_layer_in := bw_layer_in qp;
       fl_layer_out := fl_layer_out qp; bw_layer_out := bw_layer_out qp;
       quantization_rest := quantization_rest qp |} l.

Definition set_fl_layer_in (v : Z) (l : LayerParameter) : LayerParameter :=
  let qp := mutable_quantization_param l in
  with_quantization_param
    {| fl_params := fl_params qp; bw_params := bw_params qp;
       fl_layer_in := Some v; bw_layer_in := bw_layer_in qp;
       fl_layer_out := fl_layer_out qp; bw_layer_out := bw_layer_out qp;
       quantization_rest := quantization_rest qp |} l.

Definition set_bw_layer_in (v : Z) (l : LayerParameter) : LayerParameter :=
  let qp := mutable_quantization_param l in
  with_quantization_param
    {| fl_params := fl_params qp; bw_params := bw_params qp;
       fl_layer_in := fl_layer_in qp; bw_layer_in := Some v;
       fl_layer_out := fl_layer_out qp; bw_layer_out := bw_layer_out qp;
       quantization_rest := quantization_rest qp |} l.

Definition set_fl_layer_out (v : Z) (l : LayerParameter) : LayerParameter :=
  let qp := mutable_quantization_param l in
  with_quantization_param
    {| fl_params := fl_params qp; bw_params := bw_params qp;
       fl_layer_in := fl_layer_in qp; bw_layer_in := bw_layer_in qp;
       fl_layer_out := Some v; bw_layer_out := bw_layer_out qp;
       quantization_rest := quantization_rest qp |} l.

Definition set_bw_layer_out (v : Z) (l : LayerParameter) : LayerParameter :=
  let qp := mutable_quantization_param l in
  with_quantization_param
    {| fl_params := fl_params qp; bw_params := bw_params qp;
       fl_layer_in := fl_layer_in qp; bw_layer_in := bw_layer_in qp;
       fl_layer_out := fl_layer_out qp; bw_layer_out := Some v;
       quantization_rest := quantization_rest qp |} l.

(** [param->mutable_state()->set_phase(p)] *)
Definition set_phase (p : Phase) (param : NetParameter) : NetParameter :=
  {| state := Some {| phase := Some p;
                      state_rest := from_option state_rest [] (state param) |};
     layer := layer param; net_rest := net_rest param |}.

(** [param.release_state()] *)
Definition release_state (param : NetParameter) : NetParameter :=
  {| state := None; layer := layer param; net_rest := net_rest param |}.

Definition with_layer (ls : list LayerParameter) (param : NetParameter) : NetParameter :=
  {| state := state param; layer := ls; net_rest := net_rest param |}.

(** ** The fields of [Quantization] *)

Record Quantization := {
  model_ : string;
  weights_ : string;
  model_quantized_ : string;
  iterations_ : Z;
  trimming_mode_ : string;
  bitwidth_weights_ : Z;
  bitwidth_activations_ : Z;
  gpus_ : string;
  exp_bits_ : Z;
  test_score_baseline_ : R;
  layer_names_ : list string;
  max_in_ : list R;
  max_out_ : list R;
  max_params_ : list R;
  il_in_ : list Z;
  il_out_ : list Z;
  il_params_ : list Z;
  bw_conv_params_ : Z;
  bw_fc_params_ : Z;
  bw_in_ : Z;
  bw_out_ : Z
}.

(** ** Integer-length lookups (quantization.cpp, lines 314-330) *)

Definition GetIntegerLengthParams (q : Quantization) (layer_name : string) : outcome Z :=
  let pos := std_find (layer_names_ q) layer_name in
  vec_at (il_params_ q) pos.

Definition GetIntegerLengthIn (q : Quantization) (layer_name : string) : outcome Z :=
  let pos := std_find (layer_names_ q) layer_name in
  vec_at (il_in_ q) pos.

Definition GetIntegerLengthOut (q : Quantization) (layer_name : string) : outcome Z :=
  let pos := std_find (layer_names_ q) layer_name in
  vec_at (il_out_ q) pos.

(** ** EditNetDescriptionDynamicFixedPoint (quantization.cpp, lines 260-312)

    [edit_layer] is the body of the loop, run on [param->layer(i)]: the
    statements of the body read and write that one layer only. *)

Definition edit_layer (q : Quantization) (layers_2_quantize net_part : string)
    (bw_conv bw_fc bw_in bw_out : Z) (l : LayerParameter) : outcome LayerParameter :=
  (* if this is a convolutional layer which should be quantized ... *)
  l ← (if found layers_2_quantize "Convolution" && found (type l) "Convolution" then
         (* quantize parameters *)
         l ← (if found net_part "Parameters" then
                let l := set_type "ConvolutionRistretto" l in
                il ← GetIntegerLengthParams q (name l);
                fl ← int_sub bw_conv il;
                let l := set_fl_params fl l in
                mret (set_bw_params bw_conv l)
              else mret l);
         (* quantize activations *)
         if found net_part "Activations" then
           let l := set_type "ConvolutionRistretto" l in
           il ← GetIntegerLengthIn q (name l);
           fl ← int_sub bw_in il;
           let l := set_fl_layer_in fl l in
           let l := set_bw_layer_in bw_in l in
           il ← GetIntegerLengthOut q (name l);
           fl ← int_sub bw_out il;
           let l := set_fl_layer_out fl l in
           mret (set_bw_layer_out bw_out l)
         else mret l
       else mret l);
  (* if this is an inner product layer which should be quantized ... *)
  if found layers_2_quantize "InnerProduct" &&
     (found (type l) "InnerProduct" || found (type l) "FcRistretto") then
    (* quantize parameters *)
    l ← (if found net_part "Parameters" then
           let l := set_type "FcRistretto" l in
           il ← GetIntegerLengthParams q (name l);
           fl ← int_sub bw_fc il;
           let l := set_fl_params fl l in
           mret (set_bw_params bw_fc l)
         else mret l);
    (* quantize activations *)
    if found net_part "Activations" then
      let l := set_type "FcRistretto" l in
      il ← GetIntegerLengthIn q (name l);
      fl ← int_sub bw_in il;
      let l := set_fl_layer_in fl l in
      let l := set_bw_layer_in bw_in l in
      il ← GetIntegerLengthOut q (name l);
      fl ← int_sub bw_out il;
      let l := set_fl_layer_out fl l in
      mret (set_bw_layer_out bw_out l)
    else mret l
  else mret l.

(** One iteration of [for (int i = 0; i < param->layer_size(); ++i)]. *)
Definition edit_layer_at (q : Quantization) (layers_2_quantize net_part : string)
    (bw_conv bw_fc bw_in bw_out : Z) (param : NetParameter) (i : nat)
  : outcome NetParameter :=
  l ← vec_at (layer param) i;
  l' ← edit_layer q layers_2_quantize net_part bw_conv bw_fc bw_in bw_out l;
  mret (with_layer (<[i := l']> (layer param)) param).

(** The loop, [n] iterations left, starting at index [i]. *)
Fixpoint edit_loop (q : Quantization) (layers_2_quantize net_part : string)
    (bw_conv bw_fc bw_in bw_out : Z) (n i : nat) (param : NetParameter)
  : outcome NetParameter :=
  match n with
  | O => mret param
  | S n' =>
      param ← edit_layer_at q layers_2_quantize net_part bw_conv bw_fc bw_in bw_out param i;
      edit_loop q layers_2_quantize net_part bw_conv bw_fc bw_in bw_out n' (S i) param
  end.

Definition EditNetDescriptionDynamicFixedPoint (q : Quantization) (param : NetParameter)
    (layers_2_quantize net_part : string) (bw_conv bw_fc bw_in bw_out : Z)
  : outcome NetParameter :=
  edit_loop q layers_2_quantize net_part bw_conv bw_fc bw_in bw_out
    (length (layer param)) 0 param.

(** ** Integer lengths (quantization.cpp, lines 156-160)

    The values of [log2] and [ceil] in [double]: a real number, or one of
    the special values of IEEE 754. *)

Inductive double :=
  | Finite (r : R)
  | PosInf
  | NegInf
  | NaN.

(** [log2(x)]: minus infinity at zero, not a number below. *)
Definition log2 (x : R) : double :=
  if Rlt_dec 0 x then Finite (ln x / ln 2)
  else if Req_dec_T x 0 then NegInf else NaN.

(** [d + r] for a finite [r]. *)
Definition dadd (d : double) (r : R) : double :=
  match d with
  | Finite x => Finite (x + r)
  | PosInf => PosInf
  | NegInf => NegInf
  | NaN => NaN
  end.

Definition ceil (d : double) : double :=
  match d with
  | Finite x => Finite (IZR (Zceil x))
  | PosInf => PosInf
  | NegInf => NegInf
  | NaN => NaN
  end.

(** [(int)d]: truncation; undefined when the truncated value is not an
    [int], so at the infinities and at not-a-number. *)
Definition to_int (d : double) : outcome Z :=
  match d with
  | Finite x =>
      let z := if Rle_dec 0 x then Zfloor x else Zceil x in
      if decide (in_int z) then Done z else Undefined
  | _ => Undefined
  end.

Definition push_il_in (il : Z) (q : Quantization) : Quantization :=
  {| model_ := model_ q; weights_ := weights_ q; model_quantized_ := model_quantized_ q;
     iterations_ := iterations_ q; trimming_mode_ := trimming_mode_ q;
     bitwidth_weights_ := bitwidth_weights_ q;
     bitwidth_activations_ := bitwidth_activations_ q; gpus_ := gpus_ q;
     exp_bits_ := exp_bits_ q; test_score_baseline_ := test_score_baseline_ q;
     layer_names_ := layer_names_ q; max_in_ := max_in_ q; max_out_ := max_out_ q;
     max_params_ := max_params_ q;
     il_in_ := il_in_ q ++ [il]; il_out_ := il_out_ q; il_params_ := il_params_ q;
     bw_conv_params_ := bw_conv_params_ q; bw_fc_params_ := bw_fc_params_ q;
     bw_in_ := bw_in_ q; bw_out_ := bw_out_ q |}.

Definition push_il_out (il : Z) (q : Quantization) : Quantization :=
  {| model_ := model_ q; weights_ := weights_ q; model_quantized_ := model_quantized_ q;
     iterations_ := iterations_ q; trimming_mode_ := trimming_mode_ q;
     bitwidth_weights_ := bitwidth_weights_ q;
     bitwidth_activations_ := bitwidth_activations_ q; gpus_ := gpus_ q;
     exp_bits_ := exp_bits_ q; test_score_baseline_ := test_score_baseline_ q;
     layer_names_ := layer_names_ q; max_in_ := max_in_ q; max_out_ := max_out_ q;
     max_params_ := max_params_ q;
     il_in_ := il_in_ q; il_out_ := il_out_ q ++ [il]; il_params_ := il_params_ q;
     bw_conv_params_ := bw_conv_params_ q; bw_fc_params_ := bw_fc_params_ q;
     bw_in_ := bw_in_ q; bw_out_ := bw_out_ q |}.

Definition push_il_params (il : Z) (q : Quantization) : Quantization :=
  {| model_ := model_ q; weights_ := weights_ q; model_quantized_ := model_quantized_ q;
     iterations_ := iterations_ q; trimming_mode_ := trimming_mode_ q;
     bitwidth_weights_ := bitwidth_weights_ q;
     bitwidth_activations_ := bitwidth_activations_ q; gpus_ := gpus_ q;
     exp_bits_ := exp_bits_ q; test_score_baseline_ := test_score_baseline_ q;
     layer_names_ := layer_names_ q; max_in_ := max_in_ q; max_out_ := max_out_ q;
     max_params_ := max_params_ q;
     il_in_ := il_in_ q; il_out_ := il_out_ q; il_params_ := il_params_ q ++ [il];
     bw_conv_params_ := bw_conv_params_ q; bw_fc_params_ := bw_fc_params_ q;
     bw_in_ := bw_in_ q; bw_out_ := bw_out_ q |}.

(** The three right-hand sides of lines 157-159, as written. *)
Definition il_in_of (max_in : R) : outcome Z :=
  to_int (ceil (log2 (max_in + 1e-8 + 1))).

Definition il_out_of (max_out : R) : outcome Z :=
  to_int (ceil (log2 (max_out + 1e-8 + 1))).

Definition il_params_of (max_params : R) : outcome Z :=
  to_int (ceil (dadd (dadd (log2 max_params) 1e-8) 1)).

(** The body of the loop of lines 156-160 at index [i]. *)
Definition integer_lengths_at (q : Quantization) (i : nat) : outcome Quantization :=
  m ← vec_at (max_in_ q) i;
  il ← il_in_of m;
  let q := push_il_in il q in
  m ← vec_at (max_out_ q) i;
  il ← il_out_of m;
  let q := push_il_out il q in
  m ← vec_at (max_params_ q) i;
  il ← il_params_of m;
  mret (push_il_params il q).

Fixpoint integer_lengths_loop (n i : nat) (q : Quantization) : outcome Quantization :=
  match n with
  | O => mret q
  | S n' => q ← integer_lengths_at q i; integer_lengths_loop n' (S i) q
  end.

Definition integer_lengths (q : Quantization) : outcome Quantization :=
  integer_lengths_loop (length (layer_names_ q)) 0 q.

(** The formula of the specification: [ceil(log2(max_abs_value + eps + 1))]. *)
Definition spec_integer_length (max_abs_value : R) : Z :=
  Zceil (ln (max_abs_value + 1e-8 + 1) / ln 2).

(** ** The inference engine and the run of the tool

    [Net] is what the class knows of a [caffe::Net<float>]: the description
    it was built from and the weights copied into it. *)

Record Net := {
  net_param : NetParameter;
  net_weights : option string
}.

(** The statistics [Net::RangeInLayers] reads and writes through its four
    pointers. *)
Definition statistics : Type := list string * list R * list R * list R.

(** The collaborators the class calls and whose code is outside
    quantization.cpp.
    - [ofstream_good path]: whether [std::ofstream(path)] opens.
    - [cudaGetDeviceCount]: the number of devices, [None] when the check
      around it fails ([CUDA_CHECK], or [NO_GPU] in a CPU-only build).
    - [lexical_cast_int]: [boost::lexical_cast<int>], [None] when it throws.
    - [ReadNetParamsFromTextFileOrDie file param]: the content of [param]
      after the call, [None] when it dies.
    - [Forward net i]: the output blobs of pass [i] of [net].
    - [RangeInLayers net i]: the update of the statistics after pass [i]. *)
Record Engine := {
  ofstream_good : string → bool;
  cudaGetDeviceCount : option nat;
  lexical_cast_int : string → option Z;
  ReadNetParamsFromTextFileOrDie : string → NetParameter → option NetParameter;
  Forward : Net → nat → list (list R);
  RangeInLayers : Net → nat → statistics → statistics
}.

(** What the run does to the outside, in order. *)
Inductive event :=
  | EvProbeRemoved (path : string)
  | EvSetDevice (id : Z)
  | EvSetMode (gpu : bool)
  | EvReadNetParams (file : string)
  | EvNewNet (param : NetParameter)
  | EvCopyTrainedLayersFrom (weights : string)
  | EvForward (net : Net) (i : nat)
  | EvRangeInLayers (net : Net) (i : nat)
  | EvDeleteNet (net : Net)
  | EvWriteProtoToTextFile (param : NetParameter) (path : string).

Record world := {
  this : Quantization;
  trace : list event
}.

(** A member function: from the world before to the world after (also when
    it does not return) and its outcome. *)
Definition run (A : Type) : Type := world → world * outcome A.

#[global] Instance run_ret : MRet run := fun A a w => (w, Done a).

#[global] Instance run_bind : MBind run := fun A B f m w =>
  match m w with
  | (w', Done a) => f a w'
  | (w', Fatal msg) => (w', Fatal msg)
  | (w', Undefined) => (w', Undefined)
  end.

Definition lift {A} (o : outcome A) : run A := fun w => (w, o).

Definition get_this : run Quantization := fun w => (w, Done (this w)).

Definition put_this (q : Quantization) : run unit :=
  fun w => ({| this := q; trace := trace w |}, Done tt).

Definition emit (e : event) : run unit :=
  fun w => ({| this := this w; trace := trace w ++ [e] |}, Done tt).

(** [LOG(FATAL) << msg] *)
Definition LOG_FATAL {A} (msg : string) : run A := lift (Fatal msg).

Definition set_statistics (s : statistics) (q : Quantization) : Quantization :=
  {| model_ := model_ q; weights_ := weights_ q; model_quantized_ := model_quantized_ q;
     iterations_ := iterations_ q; trimming_mode_ := trimming_mode_ q;
     bitwidth_weights_ := bitwidth_weights_ q;
     bitwidth_activations_ := bitwidth_activations_ q; gpus_ := gpus_ q;
     exp_bits_ := exp_bits_ q; test_score_baseline_ := test_score_baseline_ q;
     layer_names_ := s.1.1.1; max_in_ := s.1.1.2; max_out_ := s.1.2;
     max_params_ := s.2;
     il_in_ := il_in_ q; il_out_ := il_out_ q; il_params_ := il_params_ q;
     bw_conv_params_ := bw_conv_params_ q; bw_fc_params_ := bw_fc_params_ q;
     bw_in_ := bw_in_ q; bw_out_ := bw_out_ q |}.

Definition set_test_score_baseline (v : R) (q : Quantization) : Quantization :=
  {| model_ := model_ q; weights_ := weights_ q; model_quantized_ := model_quantized_ q;
     iterations_ := iterations_ q; trimming_mode_ := trimming_mode_ q;
     bitwidth_weights_ := bitwidth_weights_ q;
     bitwidth_activations_ := bitwidth_activations_ q; gpus_ := gpus_ q;
     exp_bits_ := exp_bits_ q; test_score_baseline_ := v;
     layer_names_ := layer_names_ q; max_in_ := max_in_ q; max_out_ := max_out_ q;
     max_params_ := max_params_ q;
     il_in_ := il_in_ q; il_out_ := il_out_ q; il_params_ := il_params_ q;
     bw_conv_params_ := bw_conv_params_ q; bw_fc_params_ := bw_fc_params_ q;
     bw_in_ := bw_in_ q; bw_out_ := bw_out_ q |}.

(** The four assignments of lines 218-221. *)
Definition set_bit_widths (conv fc out : Z) (q : Quantization) : Quantization :=
  {| model_ := model_ q; weights_ := weights_ q; model_quantized_ := model_quantized_ q;
     iterations_ := iterations_ q; trimming_mode_ := trimming_mode_ q;
     bitwidth_weights_ := bitwidth_weights_ q;
     bitwidth_activations_ := bitwidth_activations_ q; gpus_ := gpus_ q;
     exp_bits_ := exp_bits_ q; test_score_baseline_ := test_score_baseline_ q;
     layer_names_ := layer_names_ q; max_in_ := max_in_ q; max_out_ := max_out_ q;
     max_params_ := max_params_ q;
     il_in_ := il_in_ q; il_out_ := il_out_ q; il_params_ := il_params_ q;
     bw_conv_params_ := conv; bw_fc_params_ := fc;
     bw_in_ := out; bw_out_ := out |}.

(** *** CheckWritePermissions (lines 53-61) *)

Definition CheckWritePermissions (eng : Engine) (path : string) : run unit :=
  if ofstream_good eng path then emit (EvProbeRemoved path)
  else LOG_FATAL "Missing write permissions".

(** *** SetGpu (lines 63-94) *)

(** [boost::split(strings, s, boost::is_any_of(","))] *)
Fixpoint split_commas (s : string) : list string :=
  match s with
  | EmptyString => [EmptyString]
  | String c s' =>
      if Ascii.eqb c "," then EmptyString :: split_commas s'
      else match split_commas s' with
           | tok :: toks => String c tok :: toks
           | [] => [String c EmptyString]
           end
  end.

Fixpoint cast_all (eng : Engine) (strings : list string) : outcome (list Z) :=
  match strings with
  | [] => mret []
  | s :: strings' =>
      match lexical_cast_int eng s with
      | Some id => ids ← cast_all eng strings'; mret (id :: ids)
      | None => Fatal "bad lexical cast"
      end
  end.

(** The device ids of lines 65-84: all the devices, the ids listed in
    [gpus_], or none. *)
Definition gpu_ids (eng : Engine) (gpus_ : string) : outcome (list Z) :=
  if decide (gpus_ = "all") then
    match cudaGetDeviceCount eng with
    | Some count => mret (Z.of_nat <$> seq 0 count)
    | None => Fatal "Check failed: cudaGetDeviceCount"
    end
  else if decide (String.length gpus_ ≠ 0) then
    cast_all eng (split_commas gpus_)
  else mret [].

Definition SetGpu (eng : Engine) : run unit :=
  (* Parse GPU ids or use all available devices *)
  q ← get_this;
  gpus ← lift (gpu_ids eng (gpus_ q));
  (* Set device id and mode *)
  match gpus with
  | id :: _ => emit (EvSetDevice id);; emit (EvSetMode true)
  | [] => emit (EvSetMode false)
  end.

(** *** RunForwardBatches (lines 96-149) *)

(** The loop over [k]: the elements of one output blob.  In the first batch
    the score is pushed, in the later ones it is added at [idx]. *)
Fixpoint accumulate_blob (i : nat) (result_vec : list R) (idx : nat)
    (test_score : list R) : outcome (nat * list R) :=
  match result_vec with
  | [] => mret (idx, test_score)
  | score :: result_vec' =>
      test_score ← (if decide (i = 0) then mret (test_score ++ [score])
                    else old ← vec_at test_score idx;
                         mret (<[idx := (old + score)%R]> test_score));
      accumulate_blob i result_vec' (S idx) test_score
  end.

(** The loop over [j]: the output blobs of one batch. *)
Fixpoint accumulate_result (i : nat) (result : list (list R)) (idx : nat)
    (test_score : list R) : outcome (nat * list R) :=
  match result with
  | [] => mret (idx, test_score)
  | result_vec :: result' =>
      '(idx, test_score) ← accumulate_blob i result_vec idx test_score;
      accumulate_result i result' idx test_score
  end.

(** The loop over [i], [n] batches left. *)
Fixpoint forward_batches (eng : Engine) (caffe_net : Net) (do_stats : bool)
    (n i : nat) (test_score : list R) : run (list R) :=
  match n with
  | O => mret test_score
  | S n' =>
      emit (EvForward caffe_net i);;
      let result := Forward eng caffe_net i in
      (if do_stats then
         q ← get_this;
         emit (EvRangeInLayers caffe_net i);;
         put_this (set_statistics
                     (RangeInLayers eng caffe_net i
                        (layer_names_ q, max_in_ q, max_out_ q, max_params_ q)) q)
       else mret tt);;
      '(_, test_score) ← lift (accumulate_result i result 0 test_score);
      forward_batches eng caffe_net do_stats n' (S i) test_score
  end.

(** [v[i]] for an [int] index. *)
Definition vec_at_int {A} (v : list A) (i : Z) : outcome A :=
  if decide (0 ≤ i)%Z then vec_at v (Z.to_nat i) else Undefined.

(** The value stored through [accuracy] is the result.  The loss and the
    mean scores of lines 133-147 are only logged, as is the vector
    [test_score_output_id] that names them. *)
Definition RunForwardBatches (eng : Engine) (iterations : Z) (caffe_net : Net)
    (do_stats : bool) (score_number : Z) : run R :=
  test_score ← forward_batches eng caffe_net do_stats (Z.to_nat iterations) 0 [];
  score ← lift (vec_at_int test_score score_number);
  mret (score / IZR iterations)%R.

(** *** Building and releasing nets *)

(** A default-constructed [NetParameter]. *)
Definition empty_net_param : NetParameter :=
  {| state := None; layer := []; net_rest := [] |}.

(** [caffe::ReadNetParamsFromTextFileOrDie(file, &param)] *)
Definition read_net_params (eng : Engine) (file : string) (param : NetParameter)
  : run NetParameter :=
  emit (EvReadNetParams file);;
  match ReadNetParamsFromTextFileOrDie eng file param with
  | Some param' => mret param'
  | None => LOG_FATAL "Failed to parse NetParameter file"
  end.

(** [new Net<float>(param, NULL)] *)
Definition new_Net (param : NetParameter) : run Net :=
  emit (EvNewNet param);;
  mret {| net_param := param; net_weights := None |}.

(** [new Net<float>(file, phase)]: the description of [file], its phase set. *)
Definition new_Net_of_file (eng : Engine) (file : string) (ph : Phase) : run Net :=
  param ← read_net_params eng file empty_net_param;
  new_Net (set_phase ph param).

(** [net->CopyTrainedLayersFrom(weights)] *)
Definition CopyTrainedLayersFrom (net : Net) (weights : string) : run Net :=
  emit (EvCopyTrainedLayersFrom weights);;
  mret {| net_param := net_param net; net_weights := Some weights |}.

(** [delete net] *)
Definition delete_Net (net : Net) : run unit := emit (EvDeleteNet net).

(** *** Quantize2DynamicFixedPoint (lines 151-258)

    [score_number] is left to its default in every call of
    [RunForwardBatches]: the first score. *)

Definition default_score_number : Z := 0.

Definition Quantize2DynamicFixedPoint (eng : Engine) : run unit :=
  (* Find the integer length for dynamic fixed point numbers. *)
  q ← get_this;
  q ← lift (integer_lengths q);
  put_this q;;
  (* Score net with dynamic fixed point convolution parameters. *)
  let param := empty_net_param in
  q ← get_this;
  param ← read_net_params eng (model_ q) param;
  let param := set_phase TEST param in
  let test_bw_conv_params : list Z := [] in
  let test_scores_conv_params : list R := [] in
  let bitwidth := bitwidth_weights_ q in
  param ← lift (EditNetDescriptionDynamicFixedPoint q param "Convolution" "Parameters"
                  bitwidth (-1) (-1) (-1));
  net_test ← new_Net param;
  net_test ← CopyTrainedLayersFrom net_test (weights_ q);
  accuracy ← RunForwardBatches eng (iterations_ q) net_test false default_score_number;
  let test_bw_conv_params := test_bw_conv_params ++ [bitwidth] in
  let test_scores_conv_params := test_scores_conv_params ++ [accuracy] in
  delete_Net net_test;;
  (* Score net with dynamic fixed point inner product parameters. *)
  q ← get_this;
  param ← read_net_params eng (model_ q) param;
  let param := set_phase TEST param in
  let test_bw_fc_params : list Z := [] in
  let test_scores_fc_params : list R := [] in
  param ← lift (EditNetDescriptionDynamicFixedPoint q param "InnerProduct" "Parameters"
                  (-1) bitwidth (-1) (-1));
  net_test ← new_Net param;
  net_test ← CopyTrainedLayersFrom net_test (weights_ q);
  accuracy ← RunForwardBatches eng (iterations_ q) net_test false default_score_number;
  let test_bw_fc_params := test_bw_fc_params ++ [bitwidth] in
  let test_scores_fc_params := test_scores_fc_params ++ [accuracy] in
  delete_Net net_test;;
  (* Score net with dynamic fixed point layer activations. *)
  q ← get_this;
  let bitwidth := bitwidth_activations_ q in
  param ← read_net_params eng (model_ q) param;
  let param := set_phase TEST param in
  let test_bw_layer_activations : list Z := [] in
  let test_scores_layer_activations : list R := [] in
  param ← lift (EditNetDescriptionDynamicFixedPoint q param
                  "Convolution_and_InnerProduct" "Activations"
                  (-1) (-1) bitwidth bitwidth);
  net_test ← new_Net param;
  net_test ← CopyTrainedLayersFrom net_test (weights_ q);
  accuracy ← RunForwardBatches eng (iterations_ q) net_test false default_score_number;
  let test_bw_layer_activations := test_bw_layer_activations ++ [bitwidth] in
  let test_scores_layer_activations := test_scores_layer_activations ++ [accuracy] in
  delete_Net net_test;;
  (* Choose bit-width for different network parts *)
  conv ← lift (vec_at test_bw_conv_params 0);
  fc ← lift (vec_at test_bw_fc_params 0);
  out ← lift (vec_at test_bw_layer_activations 0);
  q ← get_this;
  put_this (set_bit_widths conv fc out q);;
  (* Score dynamic fixed point network. *)
  q ← get_this;
  param ← read_net_params eng (model_ q) param;
  let param := set_phase TEST param in
  param ← lift (EditNetDescriptionDynamicFixedPoint q param
                  "Convolution_and_InnerProduct" "Parameters_and_Activations"
                  (bw_conv_params_ q) (bw_fc_params_ q) (bw_in_ q) (bw_out_ q));
  net_test ← new_Net param;
  net_test ← CopyTrainedLayersFrom net_test (weights_ q);
  accuracy ← RunForwardBatches eng (iterations_ q) net_test false default_score_number;
  delete_Net net_test;;
  let param := release_state param in
  emit (EvWriteProtoToTextFile param (model_quantized_ q)).

(** *** QuantizeNet (lines 32-51) *)

Definition QuantizeNet (eng : Engine) : run unit :=
  q ← get_this;
  CheckWritePermissions eng (model_quantized_ q);;
  SetGpu eng;;
  (* Run the reference floating point network to find baseline accuracy
     and maximum values. *)
  net_val ← new_Net_of_file eng (model_ q) TEST;
  net_val ← CopyTrainedLayersFrom net_val (weights_ q);
  accuracy ← RunForwardBatches eng (iterations_ q) net_val true default_score_number;
  q ← get_this;
  put_this (set_test_score_baseline accuracy q);;
  delete_Net net_val;;
  (* Do network quantization and scoring. *)
  q ← get_this;
  if decide (trimming_mode_ q = "dynamic_fixed_point") then
    Quantize2DynamicFixedPoint eng
  else
    LOG_FATAL ("Unknown trimming mode: " +:+ trimming_mode_ q).

(** ** Vocabulary of the statements *)

(** The two category tests of [EditNetDescriptionDynamicFixedPoint], on a
    layer type [t]. *)
Definition matches_convolution (layers_2_quantize t : string) : bool :=
  found layers_2_quantize "Convolution" && found t "Convolution".

Definition matches_inner_product (layers_2_quantize t : string) : bool :=
  found layers_2_quantize "InnerProduct" &&
  (found t "InnerProduct" || found t "FcRistretto").

Definition matches_category (layers_2_quantize t : string) : bool :=
  matches_convolution layers_2_quantize t || matches_inner_product layers_2_quantize t.





(** The recorded statistics are consistent: one integer length of each kind
    per recorded layer name. *)
Definition lengths_recorded (q : Quantization) : Prop :=
  length (il_in_ q) = length (layer_names_ q) ∧
  length (il_out_ q) = length (layer_names_ q) ∧
  length (il_params_ q) = length (layer_names_ q).

(** The descriptions the nets of a trace were built from, in order. *)
Fixpoint nets_built (tr : list event) : list NetParameter :=
  match tr with
  | [] => []
  | EvNewNet param :: tr' => param :: nets_built tr'
  | _ :: tr' => nets_built tr'
  end.

(** The scores of one batch, in the order of the two inner loops. *)
Definition scores_of (result : list (list R)) : list R := concat result.

(** The sum the loops build at position [idx]: the score of the first batch,
    then those of batches [1 .. n-1] added in turn. *)
Fixpoint added_scores (eng : Engine) (net : Net) (idx : nat) (n : nat) : R :=
  match n with
  | O => 0%R
  | S O => nth idx (scores_of (Forward eng net 0)) 0%R
  | S n' => (added_scores eng net idx n' + nth idx (scores_of (Forward eng net n')) 0)%R
  end.

(** The two blocks that the convolution branch and the inner-product branch
    of the body share, for the quantized type [ristretto_type] and the
    parameter bit-width [bw] of the branch.  [edit_layer_staged] below shows
    that the body is made of them. *)
Definition quantize_parameters (q : Quantization) (net_part ristretto_type : string)
    (bw : Z) (l : LayerParameter) : outcome LayerParameter :=
  if found net_part "Parameters" then
    let l := set_type ristretto_type l in
    il ← GetIntegerLengthParams q (name l);
    fl ← int_sub bw il;
    let l := set_fl_params fl l in
    mret (set_bw_params bw l)
  else mret l.

Definition quantize_activations (q : Quantization) (net_part ristretto_type : string)
    (bw_in bw_out : Z) (l : LayerParameter) : outcome LayerParameter :=
  if found net_part "Activations" then
    let l := set_type ristretto_type l in
    il ← GetIntegerLengthIn q (name l);
    fl ← int_sub bw_in il;
    let l := set_fl_layer_in fl l in
    let l := set_bw_layer_in bw_in l in
    il ← GetIntegerLengthOut q (name l);
    fl ← int_sub bw_out il;
    let l := set_fl_layer_out fl l in
    mret (set_bw_layer_out bw_out l)
  else mret l.

Definition quantize_layer (q : Quantization) (net_part ristretto_type : string)
    (bw bw_in bw_out : Z) (l : LayerParameter) : outcome LayerParameter :=
  l ← quantize_parameters q net_part ristretto_type bw l;
  quantize_activations q net_part ristretto_type bw_in bw_out l.

(** Integers far enough from the ends of [int] for one subtraction. *)
Definition small (z : Z) : Prop := (- 2 ^ 30 ≤ z < 2 ^ 30)%Z.

(** ** Examples used below

    The two-layer scenario of the specification: a convolution layer and a
    fully-connected layer between a data layer and an activation layer, with
    the integer lengths the specification expects. *)

Definition ex_layer (n t : string) : LayerParameter :=
  {| name := n; type := t; quantization_param := None; layer_rest := [] |}.

Definition ex_param : NetParameter :=
  {| state := None;
     layer := [ex_layer "data" "Data"; ex_layer "conv1" "Convolution";
               ex_layer "relu1" "ReLU"; ex_layer "fc1" "InnerProduct"];
     net_rest := [] |}.

Definition ex_q : Quantization :=
  {| model_ := "model.prototxt"; weights_ := "weights.caffemodel";
     model_quantized_ := "quantized.prototxt"; iterations_ := 2;
     trimming_mode_ := "dynamic_fixed_point";
     bitwidth_weights_ := 8; bitwidth_activations_ := 8; gpus_ := "";
     exp_bits_ := 4; test_score_baseline_ := 0;
     layer_names_ := ["conv1"; "fc1"];
     max_in_ := []; max_out_ := []; max_params_ := [];
     il_in_ := [2; 1]%Z; il_out_ := [1; 1]%Z; il_params_ := [3; 1]%Z;
     bw_conv_params_ := 0; bw_fc_params_ := 0; bw_in_ := 0; bw_out_ := 0 |}.

(** The same recorded names and integer lengths in another object. *)
Definition ex_q' : Quantization :=
  {| model_ := "other.prototxt"; weights_ := "other.caffemodel";
     model_quantized_ := "out.prototxt"; iterations_ := 10;
     trimming_mode_ := "dynamic_fixed_point";
     bitwidth_weights_ := 4; bitwidth_activations_ := 16; gpus_ := "all";
     exp_bits_ := 4; test_score_baseline_ := 1;
     layer_names_ := ["conv1"; "fc1"];
     max_in_ := [1; 1]%R; max_out_ := []; max_params_ := [];
     il_in_ := [2; 1]%Z; il_out_ := [1; 1]%Z; il_params_ := [3; 1]%Z;
     bw_conv_params_ := 8; bw_fc_params_ := 8; bw_in_ := 8; bw_out_ := 8 |}.

(** [ex_param] with both layer kinds and both aspects quantized at 8 bits. *)
Definition ex_param_quantized : NetParameter :=
  {| state := None;
     layer :=
       [ex_layer "data" "Data";
        {| name := "conv1"; type := "ConvolutionRistretto";
           quantization_param :=
             Some {| fl_params := Some 5%Z; bw_params := Some 8%Z;
                     fl_layer_in := Some 6%Z; bw_layer_in := Some 8%Z;
                     fl_layer_out := Some 7%Z; bw_layer_out := Some 8%Z;
                     quantization_rest := [] |};
           layer_rest := [] |};
        ex_layer "relu1" "ReLU";
        {| name := "fc1"; type := "FcRistretto";
           quantization_param :=
             Some {| fl_params := Some 7%Z; bw_params := Some 8%Z;
                     fl_layer_in := Some 7%Z; bw_layer_in := Some 8%Z;
                     fl_layer_out := Some 7%Z; bw_layer_out := Some 8%Z;
                     quantization_rest := [] |};
           layer_rest := [] |}];
     net_rest := [] |}.

(** The events of device selection for the ids [gpus]. *)
Definition gpu_events (gpus : list Z) : list event :=
  match gpus with
  | id :: _ => [EvSetDevice id; EvSetMode true]
  | [] => [EvSetMode false]
  end.

(** [sc] added to [ts] position by position, from position [idx] on: what
    the two inner loops of a later batch do to [test_score]. *)
Fixpoint add_from (idx : nat) (sc ts : list R) : list R :=
  match sc with
  | [] => ts
  | score :: sc' => add_from (S idx) sc' (alter (λ old, old + score)%R idx ts)
  end.

(** [test_score] after [n] batches of [net]. *)
Fixpoint test_score_after (eng : Engine) (net : Net) (n : nat) : list R :=
  match n with
  | O => []
  | S n' =>
      if decide (n' = 0) then scores_of (Forward eng net 0)
      else add_from 0 (scores_of (Forward eng net n')) (test_score_after eng net n')
  end.

(** The events of batches [i .. i+n-1]. *)
Fixpoint batch_events (net : Net) (do_stats : bool) (n i : nat) : list event :=
  match n with
  | O => []
  | S n' =>
      EvForward net i :: (if do_stats then [EvRangeInLayers net i] else []) ++
      batch_events net do_stats n' (S i)
  end.

(** The object after the statistics of batches [i .. i+n-1]. *)
Fixpoint statistics_after (eng : Engine) (net : Net) (do_stats : bool) (n i : nat)
    (q : Quantization) : Quantization :=
  match n with
  | O => q
  | S n' =>
      statistics_after eng net do_stats n' (S i)
        (if do_stats then
           set_statistics
             (RangeInLayers eng net i
                (layer_names_ q, max_in_ q, max_out_ q, max_params_ q)) q
         else q)
  end.

(** Every batch of the first [n] has as many scores as the first one. *)
Definition same_score_count (eng : Engine) (net : Net) (n : nat) : Prop :=
  ∀ i, i < n →
    length (scores_of (Forward eng net i)) = length (scores_of (Forward eng net 0)).

(** An engine for the examples: every file opens, the model file holds
    [ex_param], every pass outputs two blobs with three scores in all, and
    the statistics are those of the two-layer scenario. *)
Definition ex_eng : Engine :=
  {| ofstream_good := λ _, true;
     cudaGetDeviceCount := None;
     lexical_cast_int := λ _, None;
     ReadNetParamsFromTextFileOrDie := λ _ _, Some ex_param;
     Forward := λ _ _, [[1; 0]%R; [1]%R];
     RangeInLayers := λ _ _ _, (["conv1"; "fc1"], [1; 1]%R, [1; 1]%R, [1; 1]%R) |}.

Definition ex_net : Net :=
  {| net_param := set_phase TEST ex_param; net_weights := Some "weights.caffemodel" |}.

(** The object as its constructor leaves it, for a trimming mode and a number
    of iterations. *)
Definition ex_new (mode : string) (iterations : Z) : Quantization :=
  {| model_ := "model.prototxt"; weights_ := "weights.caffemodel";
     model_quantized_ := "quantized.prototxt"; iterations_ := iterations;
     trimming_mode_ := mode;
     bitwidth_weights_ := 8; bitwidth_activations_ := 8; gpus_ := "";
     exp_bits_ := 4; test_score_baseline_ := 0;
     layer_names_ := []; max_in_ := []; max_out_ := []; max_params_ := [];
     il_in_ := []; il_out_ := []; il_params_ := [];
     bw_conv_params_ := 0; bw_fc_params_ := 0; bw_in_ := 0; bw_out_ := 0 |}.

Definition ex_world (mode : string) (iterations : Z) : world :=
  {| this := ex_new mode iterations; trace := [] |}.

(** The object after the baseline run of the two-layer scenario, every
    recorded maximum being 1, and the world it starts the quantization in. *)
Definition ex_measured : Quantization :=
  set_statistics (["conv1"; "fc1"], [1; 1]%R, [1; 1]%R, [1; 1]%R)
    (ex_new "dynamic_fixed_point" 2).

Definition ex_measured_world : world := {| this := ex_measured; trace := [] |}.

(** [ex_measured] with its integer lengths: 2 for every maximum. *)
Definition ex_lengths : Quantization :=
  push_il_params 2 (push_il_out 2 (push_il_in 2
    (push_il_params 2 (push_il_out 2 (push_il_in 2 ex_measured))))).

(** The fields of the quantization parameters of a layer that belong to the
    parameters, and those that belong to the activations. *)
Definition params_fields (l : LayerParameter) : option Z * option Z :=
  (fl_params (mutable_quantization_param l), bw_params (mutable_quantization_param l)).

Definition activations_fields (l : LayerParameter)
  : option Z * option Z * option Z * option Z :=
  (fl_layer_in (mutable_quantization_param l),
   bw_layer_in (mutable_quantization_param l),
   fl_layer_out (mutable_quantization_param l),
   bw_layer_out (mutable_quantization_param l)).


(** The convolution layer of [ex_param_quantized]. *)
Definition ex_conv1_quantized : LayerParameter :=
  {| name := "conv1"; type := "ConvolutionRistretto";
     quantization_param :=
       Some {| fl_params := Some 5%Z; bw_params := Some 8%Z;
               fl_layer_in := Some 6%Z; bw_layer_in := Some 8%Z;
               fl_layer_out := Some 7%Z; bw_layer_out := Some 8%Z;
               quantization_rest := [] |};
     layer_rest := [] |}.

(** An engine whose second pass outputs more scores than its first. *)
Definition ex_eng_growing : Engine :=
  {| ofstream_good := λ _, true;
     cudaGetDeviceCount := None;
     lexical_cast_int := λ _, None;
     ReadNetParamsFromTextFileOrDie := λ _ _, Some ex_param;
     Forward := λ _ i, if decide (i = 0) then [[1]%R] else [[1; 1]%R];
     RangeInLayers := λ _ _ s, s |}.

(** The events of scoring one candidate description [c] with the object
    [q]: the model file is read, the net is built from [c], the weights are
    copied, the passes run and the net is deleted. *)
Definition candidate_events (q : Quantization) (c : NetParameter) : list event :=
  let net := {| net_param := c; net_weights := Some (weights_ q) |} in
  [EvReadNetParams (model_ q); EvNewNet c; EvCopyTrainedLayersFrom (weights_ q)] ++
  (EvForward net <$> seq 0 (Z.to_nat (iterations_ q))) ++ [EvDeleteNet net].

(** A world whose device list does not parse with [ex_eng]. *)
Definition ex_world_gpus : world :=
  {| this :=
       {| model_ := "model.prototxt"; weights_ := "weights.caffemodel";
          model_quantized_ := "quantized.prototxt"; iterations_ := 2;
          trimming_mode_ := "dynamic_fixed_point";
          bitwidth_weights_ := 8; bitwidth_activations_ := 8; gpus_ := "0,x";
          exp_bits_ := 4; test_score_baseline_ := 0;
          layer_names_ := []; max_in_ := []; max_out_ := []; max_params_ := [];
          il_in_ := []; il_out_ := []; il_params_ := [];
          bw_conv_params_ := 0; bw_fc_params_ := 0; bw_in_ := 0; bw_out_ := 0 |};
     trace := [] |}.

(** An engine that cannot open the output file. *)
Definition ex_eng_readonly : Engine :=
  {| ofstream_good := λ _, false;
     cudaGetDeviceCount := None;
     lexical_cast_int := λ _, None;
     ReadNetParamsFromTextFileOrDie := λ _ _, Some ex_param;
     Forward := λ _ _, [[1; 0]%R; [1]%R];
     RangeInLayers := λ _ _ s, s |}.

(** * Properties *)

(** ** Outcomes *)

Lemma bind_Done {A B} (m : outcome A) (f : A → outcome B) (b : B) :
  m ≫= f = Done b ↔ ∃ a, m = Done a ∧ f a = Done b.
Proof.
  destruct m as [a| |]; simpl; split; try (intros [a' [H _]]; discriminate);
    try discriminate.
  - intros H. exists a. auto.
  - intros [a' [[= ->] H]]. exact H.
Qed.

Lemma vec_at_Done {A} (v : list A) (pos : nat) (x : A) :
  vec_at v pos = Done x ↔ v !! pos = Some x.
Proof.
  unfold vec_at. destruct (v !! pos); split; intros H; try discriminate H;
    congruence.
Qed.


Lemma vec_at_ge {A} (v : list A) (pos : nat) :
  length v ≤ pos → vec_at v pos = Undefined.
Proof.
  intros H. unfold vec_at. rewrite (lookup_ge_None_2 v pos H). reflexivity.
Qed.

Lemma int_sub_Done (a b z : Z) :
  int_sub a b = Done z ↔ z = (a - b)%Z ∧ in_int (a - b).
Proof.
  unfold int_sub. destruct (decide (in_int (a - b))); split.
  - intros [= <-]. auto.
  - intros [-> _]. reflexivity.
  - discriminate.
  - intros [_ H]. contradiction.
Qed.

(** ** std::find *)


Lemma std_find_In (v : list string) (x : string) :
  x ∈ v → v !! std_find v x = Some x.
Proof.
  induction v as [|y v IH]; intros H.
  - inversion H.
  - simpl. destruct (decide (y = x)) as [->|Hne]; [reflexivity|].
    simpl. apply IH. inversion H; subst; [contradiction|assumption].
Qed.

Lemma std_find_lt (v : list string) (x : string) :
  x ∈ v → std_find v x < length v.
Proof. intros H. eapply lookup_lt_Some, std_find_In, H. Qed.

Lemma std_find_not_In (v : list string) (x : string) :
  x ∉ v → std_find v x = length v.
Proof.
  induction v as [|y v IH]; intros H; simpl; [reflexivity|].
  destruct (decide (y = x)) as [->|Hne].
  - exfalso. apply H. left.
  - f_equal. apply IH. intros Hin. apply H. right. exact Hin.
Qed.

(** ** The loop of EditNetDescriptionDynamicFixedPoint *)

Section EditLoop.
Context (q : Quantization) (layers_2_quantize net_part : string).
Context (bw_conv bw_fc bw_in bw_out : Z).

Let body := edit_layer q layers_2_quantize net_part bw_conv bw_fc bw_in bw_out.
Let loop := edit_loop q layers_2_quantize net_part bw_conv bw_fc bw_in bw_out.

(** The layers from [i] on are edited one by one, the others are kept. *)
Lemma edit_loop_Done (n i : nat) (param param' : NetParameter) :
  i + n = length (layer param) →
  loop n i param = Done param' ↔
  ∃ ls, Forall2 (λ l l', body l = Done l') (drop i (layer param)) ls ∧
        param' = with_layer (take i (layer param) ++ ls) param.
Proof.
  revert i param. induction n as [|n IH]; intros i param Hlen.
  - simpl. rewrite drop_ge by lia. rewrite take_ge by lia. split.
    + intros [= <-]. exists []. split; [constructor|].
      rewrite app_nil_r. destruct param; reflexivity.
    + intros (ls & Hls & ->). inversion Hls; subst.
      rewrite app_nil_r. destruct param; reflexivity.
  - destruct (lookup_lt_is_Some_2 (layer param) i ltac:(lia)) as [l Hl].
    rewrite (drop_S _ _ _ Hl).
    cbn [edit_loop loop]. unfold edit_layer_at, vec_at. rewrite Hl. cbn [mbind outcome_bind].
    fold body. destruct (body l) as [l'| |] eqn:Hbody.
    + cbn [mbind outcome_bind mret outcome_ret].
      set (param1 := with_layer (<[i:=l']> (layer param)) param).
      fold loop.
      assert (H1 : S i + n = length (layer param1)).
      { unfold param1. simpl. rewrite length_insert. lia. }
      rewrite (IH (S i) param1 H1).
      assert (Hd : drop (S i) (layer param1) = drop (S i) (layer param)).
      { unfold param1. simpl. apply drop_insert_lt. lia. }
      assert (Ht : take (S i) (layer param1) = take i (layer param) ++ [l']).
      { unfold param1. simpl.
        rewrite (take_S_r _ _ l') by (apply list_lookup_insert_eq; lia).
        rewrite take_insert_ge by lia. reflexivity. }
      rewrite Hd, Ht. split.
      * intros (ls & Hls & ->). exists (l' :: ls). split.
        { constructor; assumption. }
        { rewrite <- app_assoc. reflexivity. }
      * intros (ls & Hls & ->). inversion Hls as [|? l'' ? ls' Hb Hls']; subst.
        rewrite Hbody in Hb. injection Hb as <-.
        exists ls'. split; [assumption|]. rewrite <- app_assoc. reflexivity.
    + cbn. split; [discriminate|].
      intros (ls & Hls & _). inversion Hls; subst. congruence.
    + cbn. split; [discriminate|].
      intros (ls & Hls & _). inversion Hls; subst. congruence.
Qed.

(** The whole edit is the body mapped over the layers. *)
Lemma Edit_Done (param param' : NetParameter) :
  EditNetDescriptionDynamicFixedPoint q param layers_2_quantize net_part
    bw_conv bw_fc bw_in bw_out = Done param' ↔
  ∃ ls, Forall2 (λ l l', body l = Done l') (layer param) ls ∧
        param' = with_layer ls param.
Proof.
  unfold EditNetDescriptionDynamicFixedPoint. fold loop.
  rewrite edit_loop_Done by reflexivity. rewrite drop_0. reflexivity.
Qed.
End EditLoop.

(** ** The body of the loop *)

Lemma found_CR_C : found "ConvolutionRistretto" "Convolution" = true.
Proof. reflexivity. Qed.

Lemma found_CR_IP : found "ConvolutionRistretto" "InnerProduct" = false.
Proof. reflexivity. Qed.

Lemma found_CR_Fc : found "ConvolutionRistretto" "FcRistretto" = false.
Proof. reflexivity. Qed.

Lemma found_Fc_C : found "FcRistretto" "Convolution" = false.
Proof. reflexivity. Qed.

Lemma found_Fc_Fc : found "FcRistretto" "FcRistretto" = true.
Proof. reflexivity. Qed.

(** The body, block by block. *)
Lemma edit_layer_staged (q : Quantization) (layers_2_quantize net_part : string)
    (bw_conv bw_fc bw_in bw_out : Z) (l : LayerParameter) :
  edit_layer q layers_2_quantize net_part bw_conv bw_fc bw_in bw_out l =
  (l ← (if matches_convolution layers_2_quantize (type l) then
          quantize_layer q net_part "ConvolutionRistretto" bw_conv bw_in bw_out l
        else mret l);
   if matches_inner_product layers_2_quantize (type l) then
     quantize_layer q net_part "FcRistretto" bw_fc bw_in bw_out l
   else mret l).
Proof. reflexivity. Qed.

(** Unfolding of the setters and of the monad, call by value. *)
Ltac run_setters :=
  cbv [set_type set_fl_params set_bw_params set_fl_layer_in set_bw_layer_in
       set_fl_layer_out set_bw_layer_out with_quantization_param
       mutable_quantization_param default from_option Datatypes.id name type quantization_param layer_rest
       fl_params bw_params fl_layer_in bw_layer_in fl_layer_out bw_layer_out
       quantization_rest mbind mret outcome_bind outcome_ret] in *.

Ltac case_calls H :=
  repeat match type of H with
         | context [GetIntegerLengthParams ?q ?n] =>
             destruct (GetIntegerLengthParams q n) eqn:?; try discriminate H
         | context [GetIntegerLengthIn ?q ?n] =>
             destruct (GetIntegerLengthIn q n) eqn:?; try discriminate H
         | context [GetIntegerLengthOut ?q ?n] =>
             destruct (GetIntegerLengthOut q n) eqn:?; try discriminate H
         | context [int_sub ?a ?b] =>
             destruct (int_sub a b) eqn:?; try discriminate H
         end.

Ltac rewrite_eqs :=
  repeat match goal with
         | E : ?x = _ |- context [?x] => rewrite E
         end.


Section QuantizeLayer.
Context (q : Quantization) (net_part ristretto_type : string).
Context (bw bw_in bw_out : Z).

Let block := quantize_layer q net_part ristretto_type bw bw_in bw_out.

Lemma quantize_layer_frame (l l' : LayerParameter) :
  block l = Done l' →
  name l' = name l ∧ layer_rest l' = layer_rest l ∧
  (if found net_part "Parameters" || found net_part "Activations"
   then type l' = ristretto_type else l' = l).
Proof.
  unfold block, quantize_layer, quantize_parameters, quantize_activations.
  destruct l as [n t oq r].
  destruct (found net_part "Parameters"), (found net_part "Activations");
    run_setters; intros H; case_calls H; injection H as <-; cbn [orb];
    repeat split; reflexivity.
Qed.



Lemma quantize_layer_idempotent (l l' : LayerParameter) :
  block l = Done l' → block l' = Done l'.
Proof.
  unfold block, quantize_layer, quantize_parameters, quantize_activations.
  destruct l as [n t oq r].
  destruct (found net_part "Parameters"), (found net_part "Activations");
    run_setters; intros H; case_calls H; injection H as <-;
    run_setters; rewrite_eqs; try reflexivity;
    destruct oq as [[]|]; reflexivity.
Qed.

(** The block returns when the layer is recorded and the subtractions it
    makes stay in [int]. *)
Lemma quantize_layer_returns (l : LayerParameter) (ilp ili ilo : Z) :
  GetIntegerLengthParams q (name l) = Done ilp →
  GetIntegerLengthIn q (name l) = Done ili →
  GetIntegerLengthOut q (name l) = Done ilo →
  in_int (bw - ilp) → in_int (bw_in - ili) → in_int (bw_out - ilo) →
  ∃ l', block l = Done l'.
Proof.
  unfold block, quantize_layer, quantize_parameters, quantize_activations.
  destruct l as [n t oq r]. run_setters. intros Hp Hi Ho Rp Ri Ro.
  assert (Sp : int_sub bw ilp = Done (bw - ilp)%Z) by (apply int_sub_Done; auto).
  assert (Si : int_sub bw_in ili = Done (bw_in - ili)%Z) by (apply int_sub_Done; auto).
  assert (So : int_sub bw_out ilo = Done (bw_out - ilo)%Z) by (apply int_sub_Done; auto).
  destruct (found net_part "Parameters"), (found net_part "Activations");
    rewrite ?Hp, ?Sp, ?Hi, ?Si, ?Ho, ?So; eexists; reflexivity.
Qed.
End QuantizeLayer.

(** ** Integer-length lookups *)

Lemma std_find_first (v : list string) (x : string) (j : nat) :
  j < std_find v x → v !! j ≠ Some x.
Proof.
  revert j. induction v as [|y v IH]; intros j Hj; simpl in *; [lia|].
  destruct (decide (y = x)) as [->|Hne]; [lia|].
  destruct j as [|j]; simpl.
  - congruence.
  - apply IH. lia.
Qed.

(** C2, as the code has it.  For a recorded layer name each of the three
    lookups returns the integer length stored at the position of the first
    occurrence of the name.  For a name that is not recorded no failure is
    reported: each lookup indexes its vector at the number of recorded layers,
    one past the end, which is undefined behaviour. *)
Theorem integer_length_lookups (q : Quantization) (layer_name : string) :
  lengths_recorded q →
  (layer_name ∈ layer_names_ q →
   ∃ pos ilp ili ilo,
     layer_names_ q !! pos = Some layer_name ∧
     (∀ j, j < pos → layer_names_ q !! j ≠ Some layer_name) ∧
     il_params_ q !! pos = Some ilp ∧ GetIntegerLengthParams q layer_name = Done ilp ∧
     il_in_ q !! pos = Some ili ∧ GetIntegerLengthIn q layer_name = Done ili ∧
     il_out_ q !! pos = Some ilo ∧ GetIntegerLengthOut q layer_name = Done ilo) ∧
  (layer_name ∉ layer_names_ q →
   std_find (layer_names_ q) layer_name = length (layer_names_ q) ∧
   GetIntegerLengthParams q layer_name = Undefined ∧
   GetIntegerLengthIn q layer_name = Undefined ∧
   GetIntegerLengthOut q layer_name = Undefined).
Proof.
  intros (Hi & Ho & Hp). split.
  - intros Hin. pose proof (std_find_lt _ _ Hin) as Hlt.
    exists (std_find (layer_names_ q) layer_name).
    destruct (lookup_lt_is_Some_2 (il_params_ q) _ ltac:(rewrite Hp; exact Hlt))
      as [ilp Hilp].
    destruct (lookup_lt_is_Some_2 (il_in_ q) _ ltac:(rewrite Hi; exact Hlt))
      as [ili Hili].
    destruct (lookup_lt_is_Some_2 (il_out_ q) _ ltac:(rewrite Ho; exact Hlt))
      as [ilo Hilo].
    exists ilp, ili, ilo.
    unfold GetIntegerLengthParams, GetIntegerLengthIn, GetIntegerLengthOut.
    rewrite !vec_at_Done.
    repeat split; try assumption.
    + apply std_find_In, Hin.
    + intros j. apply std_find_first.
  - intros Hnot. pose proof (std_find_not_In _ _ Hnot) as Hpos.
    unfold GetIntegerLengthParams, GetIntegerLengthIn, GetIntegerLengthOut.
    rewrite Hpos. repeat split; apply vec_at_ge; lia.
Qed.


Lemma integer_length_lookups_witness :
  ("conv1" ∈ layer_names_ ex_q →
   ∃ pos ilp ili ilo,
     layer_names_ ex_q !! pos = Some "conv1" ∧
     (∀ j, j < pos → layer_names_ ex_q !! j ≠ Some "conv1") ∧
     il_params_ ex_q !! pos = Some ilp ∧ GetIntegerLengthParams ex_q "conv1" = Done ilp ∧
     il_in_ ex_q !! pos = Some ili ∧ GetIntegerLengthIn ex_q "conv1" = Done ili ∧
     il_out_ ex_q !! pos = Some ilo ∧ GetIntegerLengthOut ex_q "conv1" = Done ilo) ∧
  ("conv1" ∉ layer_names_ ex_q →
   std_find (layer_names_ ex_q) "conv1" = length (layer_names_ ex_q) ∧
   GetIntegerLengthParams ex_q "conv1" = Undefined ∧
   GetIntegerLengthIn ex_q "conv1" = Undefined ∧
   GetIntegerLengthOut ex_q "conv1" = Undefined).
Proof. apply (integer_length_lookups ex_q "conv1"). repeat split. Defined.

(** C2 as stated fails: the layer name "pool1" is not recorded, and none of
    the three lookups reports a failure for it. *)
Lemma integer_length_lookup_unknown_not_reported :
  ("pool1" ∉ layer_names_ ex_q) ∧
  ¬ is_Fatal (GetIntegerLengthParams ex_q "pool1") ∧
  ¬ is_Fatal (GetIntegerLengthIn ex_q "pool1") ∧
  ¬ is_Fatal (GetIntegerLengthOut ex_q "pool1").
Proof.
  split.
  - simpl. rewrite !elem_of_cons, elem_of_nil. intros [H|[H|H]]; try discriminate H.
    exact H.
  - repeat split; intros H; exact H.
Qed.

(** ** The body of the loop, case by case *)

Section EditLayer.
Context (q : Quantization) (layers_2_quantize net_part : string).
Context (bw_conv bw_fc bw_in bw_out : Z).

Let body := edit_layer q layers_2_quantize net_part bw_conv bw_fc bw_in bw_out.
Let conv_block :=
  quantize_layer q net_part "ConvolutionRistretto" bw_conv bw_in bw_out.
Let fc_block := quantize_layer q net_part "FcRistretto" bw_fc bw_in bw_out.

Lemma quantize_layer_unedited (ty : string) (bw : Z) (l : LayerParameter) :
  found net_part "Parameters" || found net_part "Activations" = false →
  quantize_layer q net_part ty bw bw_in bw_out l = Done l.
Proof.
  intros [HP HA]%orb_false_elim.
  unfold quantize_layer, quantize_parameters, quantize_activations.
  rewrite HP, HA. reflexivity.
Qed.

Lemma matches_inner_product_CR :
  matches_inner_product layers_2_quantize "ConvolutionRistretto" = false.
Proof.
  unfold matches_inner_product. rewrite found_CR_IP, found_CR_Fc.
  apply andb_false_r.
Qed.

Lemma matches_convolution_CR :
  matches_convolution layers_2_quantize "ConvolutionRistretto" =
  found layers_2_quantize "Convolution".
Proof. unfold matches_convolution. rewrite found_CR_C. apply andb_true_r. Qed.

Lemma matches_convolution_Fc :
  matches_convolution layers_2_quantize "FcRistretto" = false.
Proof. unfold matches_convolution. rewrite found_Fc_C. apply andb_false_r. Qed.

Lemma matches_inner_product_Fc :
  matches_inner_product layers_2_quantize "FcRistretto" =
  found layers_2_quantize "InnerProduct".
Proof.
  unfold matches_inner_product. rewrite found_Fc_Fc, orb_true_r.
  apply andb_true_r.
Qed.

(** A layer is edited by the first branch whose test it passes; a layer the
    convolution branch has edited does not pass the second test. *)
Lemma edit_layer_cases (l l' : LayerParameter) :
  body l = Done l' →
  (matches_convolution layers_2_quantize (type l) = true ∧ conv_block l = Done l') ∨
  (matches_convolution layers_2_quantize (type l) = false ∧
   matches_inner_product layers_2_quantize (type l) = true ∧ fc_block l = Done l') ∨
  (matches_category layers_2_quantize (type l) = false ∧ l' = l).
Proof.
  unfold body. rewrite edit_layer_staged. fold conv_block fc_block.
  unfold matches_category.
  destruct (matches_convolution layers_2_quantize (type l)) eqn:Hc.
  - destruct (conv_block l) as [l1| |] eqn:Hq; try discriminate.
    cbn [mbind outcome_bind].
    destruct (quantize_layer_frame _ _ _ _ _ _ _ _ Hq) as (_ & _ & Hty).
    destruct (found net_part "Parameters" || found net_part "Activations") eqn:He.
    + rewrite Hty, matches_inner_product_CR. intros [= <-]. left. auto.
    + subst l1. destruct (matches_inner_product layers_2_quantize (type l)).
      * unfold fc_block. rewrite quantize_layer_unedited by exact He.
        intros [= <-]. left. auto.
      * intros [= <-]. left. auto.
  - cbn [mbind outcome_bind mret outcome_ret].
    destruct (matches_inner_product layers_2_quantize (type l)) eqn:Hi.
    + intros H. right. left. auto.
    + intros [= <-]. right. right. auto.
Qed.

Lemma edit_layer_frame (l l' : LayerParameter) :
  body l = Done l' →
  name l' = name l ∧ layer_rest l' = layer_rest l ∧
  (matches_category layers_2_quantize (type l) = false → l' = l).
Proof.
  intros H. unfold matches_category.
  destruct (edit_layer_cases l l' H) as [[Hc Hq]|[(Hc & Hi & Hq)|[Hm ->]]].
  - destruct (quantize_layer_frame _ _ _ _ _ _ _ _ Hq) as (Hn & Hr & _).
    rewrite Hc. repeat split; auto. discriminate.
  - destruct (quantize_layer_frame _ _ _ _ _ _ _ _ Hq) as (Hn & Hr & _).
    rewrite Hc, Hi. repeat split; auto. discriminate.
  - auto.
Qed.

Lemma edit_layer_idempotent (l l' : LayerParameter) :
  body l = Done l' → body l' = Done l'.
Proof.
  intros H.
  destruct (edit_layer_cases l l' H) as [[Hc Hq]|[(Hc & Hi & Hq)|[Hm ->]]];
    [| |exact H].
  - destruct (quantize_layer_frame _ _ _ _ _ _ _ _ Hq) as (_ & _ & Hty).
    destruct (found net_part "Parameters" || found net_part "Activations") eqn:He;
      [|subst l'; exact H].
    unfold body. rewrite edit_layer_staged. fold conv_block fc_block.
    apply andb_true_iff in Hc as [Hl _].
    rewrite Hty, matches_convolution_CR, Hl. unfold conv_block at 1.
    rewrite (quantize_layer_idempotent _ _ _ _ _ _ _ _ Hq).
    cbn [mbind outcome_bind]. rewrite Hty, matches_inner_product_CR. reflexivity.
  - destruct (quantize_layer_frame _ _ _ _ _ _ _ _ Hq) as (_ & _ & Hty).
    destruct (found net_part "Parameters" || found net_part "Activations") eqn:He;
      [|subst l'; exact H].
    unfold body. rewrite edit_layer_staged. fold conv_block fc_block.
    apply andb_true_iff in Hi as [Hl _].
    rewrite Hty, matches_convolution_Fc.
    cbn [mbind mret outcome_bind outcome_ret].
    rewrite Hty, matches_inner_product_Fc, Hl.
    apply (quantize_layer_idempotent _ _ _ _ _ _ _ _ Hq).
Qed.



(** The body returns on a layer that fails both tests, and on a recorded
    layer when the subtractions stay in [int]. *)
Lemma edit_layer_returns (l : LayerParameter) :
  (matches_category layers_2_quantize (type l) = true →
   ∃ ilp ili ilo,
     GetIntegerLengthParams q (name l) = Done ilp ∧
     GetIntegerLengthIn q (name l) = Done ili ∧
     GetIntegerLengthOut q (name l) = Done ilo ∧
     in_int (bw_conv - ilp) ∧ in_int (bw_fc - ilp) ∧
     in_int (bw_in - ili) ∧ in_int (bw_out - ilo)) →
  ∃ l', body l = Done l'.
Proof.
  intros Hrec. unfold body. rewrite edit_layer_staged. fold conv_block fc_block.
  unfold matches_category in Hrec.
  destruct (matches_convolution layers_2_quantize (type l)) eqn:Hc.
  - destruct Hrec as (ilp & ili & ilo & Hp & Hi & Ho & Rc & Rf & Ri & Ro);
      [reflexivity|].
    destruct (quantize_layer_returns q net_part "ConvolutionRistretto"
                bw_conv bw_in bw_out l ilp ili ilo Hp Hi Ho Rc Ri Ro) as [l1 Hq].
    fold conv_block in Hq. rewrite Hq. cbn [mbind outcome_bind].
    destruct (quantize_layer_frame _ _ _ _ _ _ _ _ Hq) as (Hn & _ & Hty).
    destruct (found net_part "Parameters" || found net_part "Activations") eqn:He.
    + rewrite Hty, matches_inner_product_CR. eexists; reflexivity.
    + subst l1. destruct (matches_inner_product layers_2_quantize (type l)).
      * unfold fc_block. rewrite quantize_layer_unedited by exact He.
        eexists; reflexivity.
      * eexists; reflexivity.
  - cbn [mbind outcome_bind mret outcome_ret].
    destruct (matches_inner_product layers_2_quantize (type l)) eqn:Hi.
    + destruct Hrec as (ilp & ili & ilo & Hp & Hi' & Ho & Rc & Rf & Ri & Ro);
        [reflexivity|].
      exact (quantize_layer_returns q net_part "FcRistretto"
               bw_fc bw_in bw_out l ilp ili ilo Hp Hi' Ho Rf Ri Ro).
    + eexists; reflexivity.
Qed.
End EditLayer.

(** ** EditNetDescriptionDynamicFixedPoint *)

Lemma ex_param_edit :
  EditNetDescriptionDynamicFixedPoint ex_q ex_param
    "Convolution_and_InnerProduct" "Parameters_and_Activations" 8 8 8 8 =
  Done ex_param_quantized.
Proof. reflexivity. Qed.



(** A layer that passes neither category test is kept whole. *)
Lemma Edit_unmatched (q : Quantization) (param param' : NetParameter)
    (layers_2_quantize net_part : string) (bw_conv bw_fc bw_in bw_out : Z)
    (i : nat) (l : LayerParameter) :
  EditNetDescriptionDynamicFixedPoint q param layers_2_quantize net_part
    bw_conv bw_fc bw_in bw_out = Done param' →
  layer param !! i = Some l →
  matches_category layers_2_quantize (type l) = false →
  layer param' !! i = Some l.
Proof.
  intros (ls & Hall & ->)%Edit_Done Hl Hm. cbn [layer with_layer].
  destruct (Forall2_lookup_l _ _ _ _ _ Hall Hl) as (l' & Hl' & Hb).
  destruct (edit_layer_frame _ _ _ _ _ _ _ _ _ Hb) as (_ & _ & Hsame).
  rewrite Hl', (Hsame Hm). reflexivity.
Qed.

(** C8.  The edit keeps the number and the order of the layers and
    everything of the description outside them; of a layer it keeps the name
    and the fields outside type and quantization parameters; a layer that
    passes neither category test is kept whole. *)
Theorem edit_frame (q : Quantization) (param param' : NetParameter)
    (layers_2_quantize net_part : string) (bw_conv bw_fc bw_in bw_out : Z) :
  EditNetDescriptionDynamicFixedPoint q param layers_2_quantize net_part
    bw_conv bw_fc bw_in bw_out = Done param' →
  length (layer param') = length (layer param) ∧
  name <$> layer param' = name <$> layer param ∧
  state param' = state param ∧ net_rest param' = net_rest param ∧
  ∀ i l, layer param !! i = Some l →
    ∃ l', layer param' !! i = Some l' ∧
      name l' = name l ∧ layer_rest l' = layer_rest l ∧
      (matches_category layers_2_quantize (type l) = false → l' = l).
Proof.
  intros (ls & Hall & ->)%Edit_Done. cbn [layer state net_rest with_layer].
  repeat split.
  - symmetry. eapply Forall2_length, Hall.
  - induction Hall as [|l l' ls0 ls' Hb _ IH]; [reflexivity|].
    cbn. f_equal; [|exact IH].
    apply (edit_layer_frame _ _ _ _ _ _ _ _ _ Hb).
  - intros i l Hl.
    destruct (Forall2_lookup_l _ _ _ _ _ Hall Hl) as (l' & Hl' & Hb).
    exists l'. split; [exact Hl'|].
    apply (edit_layer_frame _ _ _ _ _ _ _ _ _ Hb).
Qed.

Lemma edit_frame_witness :
  length (layer ex_param_quantized) = length (layer ex_param) ∧
  name <$> layer ex_param_quantized = name <$> layer ex_param ∧
  state ex_param_quantized = state ex_param ∧
  net_rest ex_param_quantized = net_rest ex_param ∧
  ∀ i l, layer ex_param !! i = Some l →
    ∃ l', layer ex_param_quantized !! i = Some l' ∧
      name l' = name l ∧ layer_rest l' = layer_rest l ∧
      (matches_category "Convolution_and_InnerProduct" (type l) = false → l' = l).
Proof.
  apply (edit_frame ex_q ex_param ex_param_quantized
           "Convolution_and_InnerProduct" "Parameters_and_Activations" 8 8 8 8).
  reflexivity.
Defined.

(** The edit reads the recorded names and integer lengths only. *)
Lemma Edit_same_lookups (q1 q2 : Quantization) (param : NetParameter)
    (layers_2_quantize net_part : string) (bw_conv bw_fc bw_in bw_out : Z) :
  layer_names_ q1 = layer_names_ q2 →
  il_in_ q1 = il_in_ q2 → il_out_ q1 = il_out_ q2 → il_params_ q1 = il_params_ q2 →
  EditNetDescriptionDynamicFixedPoint q1 param layers_2_quantize net_part
    bw_conv bw_fc bw_in bw_out =
  EditNetDescriptionDynamicFixedPoint q2 param layers_2_quantize net_part
    bw_conv bw_fc bw_in bw_out.
Proof.
  intros Hn Hi Ho Hp.
  assert (Hbody : ∀ l,
    edit_layer q1 layers_2_quantize net_part bw_conv bw_fc bw_in bw_out l =
    edit_layer q2 layers_2_quantize net_part bw_conv bw_fc bw_in bw_out l).
  { intros l. unfold edit_layer, GetIntegerLengthParams, GetIntegerLengthIn,
      GetIntegerLengthOut. rewrite Hn, Hi, Ho, Hp. reflexivity. }
  unfold EditNetDescriptionDynamicFixedPoint.
  generalize (length (layer param)) as n. generalize 0 as i. intros i n.
  revert i param. induction n as [|n IH]; intros i param; [reflexivity|].
  cbn [edit_loop]. unfold edit_layer_at.
  destruct (vec_at (layer param) i) as [l| |]; try reflexivity.
  cbn [mbind outcome_bind]. rewrite Hbody.
  destruct (edit_layer q2 _ _ _ _ _ _ l) as [l'| |]; try reflexivity.
  cbn [mbind outcome_bind mret outcome_ret]. apply IH.
Qed.

(** C9.  The description the edit produces is a function of the base
    description, the category, the aspect, the four bit-widths and the
    recorded layer names and integer lengths: two objects that agree on the
    recorded names and integer lengths, whatever their other fields, give the
    same result. *)
Theorem edit_deterministic (q1 q2 : Quantization) (param : NetParameter)
    (layers_2_quantize net_part : string) (bw_conv bw_fc bw_in bw_out : Z) :
  layer_names_ q1 = layer_names_ q2 →
  il_in_ q1 = il_in_ q2 → il_out_ q1 = il_out_ q2 → il_params_ q1 = il_params_ q2 →
  EditNetDescriptionDynamicFixedPoint q1 param layers_2_quantize net_part
    bw_conv bw_fc bw_in bw_out =
  EditNetDescriptionDynamicFixedPoint q2 param layers_2_quantize net_part
    bw_conv bw_fc bw_in bw_out.
Proof. apply Edit_same_lookups. Qed.

Lemma edit_deterministic_witness :
  EditNetDescriptionDynamicFixedPoint ex_q ex_param
    "InnerProduct" "Parameters" (-1) 8 (-1) (-1) =
  EditNetDescriptionDynamicFixedPoint ex_q' ex_param
    "InnerProduct" "Parameters" (-1) 8 (-1) (-1).
Proof. apply (edit_deterministic ex_q ex_q'); reflexivity. Defined.

(** C10.  Editing the description the edit returned, with the same
    arguments and the same recorded integer lengths, returns it unchanged. *)
Theorem edit_idempotent (q : Quantization) (param param' : NetParameter)
    (layers_2_quantize net_part : string) (bw_conv bw_fc bw_in bw_out : Z) :
  EditNetDescriptionDynamicFixedPoint q param layers_2_quantize net_part
    bw_conv bw_fc bw_in bw_out = Done param' →
  EditNetDescriptionDynamicFixedPoint q param' layers_2_quantize net_part
    bw_conv bw_fc bw_in bw_out = Done param'.
Proof.
  intros (ls & Hall & ->)%Edit_Done. apply Edit_Done.
  exists ls. split; [|reflexivity]. cbn [layer with_layer].
  revert Hall. generalize (layer param). intros ls0 Hall.
  induction Hall as [|l l' ls0 ls' Hb _ IH]; constructor.
  - exact (edit_layer_idempotent _ _ _ _ _ _ _ _ _ Hb).
  - exact IH.
Qed.

Lemma edit_idempotent_witness :
  EditNetDescriptionDynamicFixedPoint ex_q ex_param_quantized
    "Convolution_and_InnerProduct" "Parameters_and_Activations" 8 8 8 8 =
  Done ex_param_quantized.
Proof. apply (edit_idempotent ex_q ex_param). reflexivity. Defined.

(** ** Integer lengths *)

Lemma ln_2_pos : (0 < ln 2)%R.
Proof. rewrite <- ln_1. apply ln_increasing; lra. Qed.

(** [ceil(log2 x) = k] exactly when [2^(k-1) < x <= 2^k], for [k >= 1]. *)
Lemma Zceil_log2 (x : R) (k : nat) :
  (2 ^ k < x * 2)%R ∧ (x <= 2 ^ k)%R → Zceil (ln x / ln 2) = Z.of_nat k.
Proof.
  intros [Hlo Hhi]. pose proof ln_2_pos as H2.
  assert (Hx : (0 < x)%R).
  { pose proof (pow_lt 2 k ltac:(lra)). lra. }
  apply Zceil_eq. rewrite <- INR_IZR_INZ.
  assert (Hk : (INR k * ln 2 = ln (2 ^ k))%R) by (rewrite ln_pow; lra).
  split.
  - apply Rmult_lt_reg_r with (ln 2); [exact H2|].
    replace (ln x / ln 2 * ln 2)%R with (ln x) by (field; lra).
    replace ((INR k - 1) * ln 2)%R with (ln (2 ^ k) - ln 2)%R by lra.
    assert (ln (2 ^ k) < ln (x * 2))%R.
    { apply ln_increasing; [apply pow_lt; lra|exact Hlo]. }
    rewrite ln_mult in H by lra. lra.
  - apply Rmult_le_reg_r with (ln 2); [exact H2|].
    replace (ln x / ln 2 * ln 2)%R with (ln x) by (field; lra).
    rewrite Hk. destruct Hhi as [Hlt | Heq]; [|rewrite Heq; lra].
    left. apply ln_increasing; assumption.
Qed.

Lemma to_int_ceil (x : R) :
  to_int (ceil (Finite x)) =
  if decide (in_int (Zceil x)) then Done (Zceil x) else Undefined.
Proof.
  unfold to_int, ceil. destruct (Rle_dec 0 (IZR (Zceil x))).
  - rewrite ZfloorZ. reflexivity.
  - replace (Zceil (IZR (Zceil x))) with (Zceil x); [reflexivity|].
    symmetry. apply Zceil_eq. lra.
Qed.

Lemma log2_pos (x : R) : (0 < x)%R → log2 x = Finite (ln x / ln 2).
Proof. intros H. unfold log2. destruct (Rlt_dec 0 x); [reflexivity|contradiction]. Qed.

Lemma log2_0 : log2 0 = NegInf.
Proof.
  unfold log2. destruct (Rlt_dec 0 0) as [H|_]; [lra|].
  destruct (Req_dec_T 0 0) as [_|H]; [reflexivity|contradiction].
Qed.

(** C1, where the code departs from it.  For the recorded maximum of the
    parameters the code computes [ceil(log2(max) + 1e-8 + 1)], the sum taken
    outside the logarithm: at the maximum 2 this is 3 where the formula of
    the specification, which the code uses for the two activation maxima,
    gives 2; at the maximum 0 the logarithm is minus infinity and its
    conversion to [int] is undefined. *)
Theorem il_params_departs_from_formula :
  il_params_of 2 = Done 3%Z ∧ spec_integer_length 2 = 2%Z ∧
  il_in_of 2 = Done 2%Z ∧ il_out_of 2 = Done 2%Z ∧
  il_params_of 0 = Undefined.
Proof.
  assert (H3 : Zceil (ln (2 + 1e-8 + 1) / ln 2) = 2%Z).
  { apply (Zceil_log2 _ 2). simpl. lra. }
  assert (Hln : (ln 2 / ln 2 = 1)%R) by (field; pose proof ln_2_pos; lra).
  repeat split.
  - unfold il_params_of. rewrite log2_pos by lra. cbn [dadd].
    rewrite to_int_ceil, Hln.
    replace (Zceil (1 + 1e-8 + 1)) with 3%Z by (symmetry; apply Zceil_eq; simpl; lra).
    reflexivity.
  - exact H3.
  - unfold il_in_of. rewrite log2_pos by lra. rewrite to_int_ceil, H3. reflexivity.
  - unfold il_out_of. rewrite log2_pos by lra. rewrite to_int_ceil, H3. reflexivity.
  - unfold il_params_of. rewrite log2_0. reflexivity.
Qed.

(** ** The score loops of RunForwardBatches *)

Lemma insert_as_alter (ts : list R) (idx : nat) (old score : R) :
  ts !! idx = Some old →
  <[idx := (old + score)%R]> ts = alter (λ old, old + score)%R idx ts.
Proof.
  intros H. apply list_eq. intros j.
  rewrite list_lookup_alter. destruct (decide (idx = j)) as [<-|Hne].
  - rewrite H. apply list_lookup_insert_eq. eapply lookup_lt_Some, H.
  - apply list_lookup_insert_ne, Hne.
Qed.

Lemma length_add_from (sc ts : list R) (idx : nat) :
  length (add_from idx sc ts) = length ts.
Proof.
  revert idx ts. induction sc as [|s sc IH]; intros idx ts; simpl; [reflexivity|].
  rewrite IH. apply length_alter.
Qed.

Lemma add_from_app (a b ts : list R) (idx : nat) :
  add_from idx (a ++ b) ts = add_from (idx + length a) b (add_from idx a ts).
Proof.
  revert idx ts. induction a as [|s a IH]; intros idx ts; simpl.
  - rewrite Nat.add_0_r. reflexivity.
  - rewrite IH. f_equal. lia.
Qed.

(** Position [j] of the scores after a later batch. *)
Lemma lookup_add_from (sc ts : list R) (idx j : nat) :
  add_from idx sc ts !! j =
  if decide (idx ≤ j < idx + length sc)
  then (λ old, old + nth (j - idx) sc 0)%R <$> ts !! j
  else ts !! j.
Proof.
  revert idx ts. induction sc as [|s sc IH]; intros idx ts; simpl.
  - destruct (decide (idx ≤ j < idx + 0)); [lia|reflexivity].
  - rewrite IH, list_lookup_alter.
    destruct (decide (S idx ≤ j < S idx + length sc)) as [H1|H1];
      destruct (decide (idx ≤ j < idx + S (length sc))) as [H2|H2];
      destruct (decide (idx = j)) as [He|He]; try lia.
    + replace (j - idx) with (S (j - S idx)) by lia. reflexivity.
    + subst j. rewrite Nat.sub_diag. reflexivity.
    + reflexivity.
Qed.

Lemma accumulate_blob_first (result_vec test_score : list R) (idx : nat) :
  accumulate_blob 0 result_vec idx test_score =
  Done (idx + length result_vec, test_score ++ result_vec).
Proof.
  revert idx test_score.
  induction result_vec as [|s rv IH]; intros idx ts; simpl.
  - rewrite Nat.add_0_r, app_nil_r. reflexivity.
  - cbn [mbind outcome_bind mret outcome_ret]. rewrite IH, <- app_assoc.
    f_equal. f_equal. lia.
Qed.

Lemma accumulate_result_first (result : list (list R)) (test_score : list R)
    (idx : nat) :
  accumulate_result 0 result idx test_score =
  Done (idx + length (scores_of result), test_score ++ scores_of result).
Proof.
  unfold scores_of. revert idx test_score.
  induction result as [|rv res IH]; intros idx ts; simpl.
  - rewrite Nat.add_0_r, app_nil_r. reflexivity.
  - rewrite accumulate_blob_first. cbn [mbind outcome_bind].
    rewrite IH, length_app, <- app_assoc. f_equal. f_equal. lia.
Qed.

Lemma accumulate_blob_later (i : nat) (result_vec test_score : list R) (idx : nat) :
  i ≠ 0 → idx + length result_vec ≤ length test_score →
  accumulate_blob i result_vec idx test_score =
  Done (idx + length result_vec, add_from idx result_vec test_score).
Proof.
  intros Hi. revert idx test_score.
  induction result_vec as [|s rv IH]; intros idx ts Hlen; simpl in *.
  - rewrite Nat.add_0_r. reflexivity.
  - destruct (decide (i = 0)) as [|_]; [contradiction|].
    destruct (lookup_lt_is_Some_2 ts idx ltac:(lia)) as [old Hold].
    unfold vec_at. rewrite Hold. cbn [mbind outcome_bind mret outcome_ret].
    rewrite (insert_as_alter _ _ _ _ Hold).
    rewrite IH by (rewrite length_alter; lia). f_equal. f_equal. lia.
Qed.

Lemma accumulate_result_later (i : nat) (result : list (list R))
    (test_score : list R) (idx : nat) :
  i ≠ 0 → idx + length (scores_of result) ≤ length test_score →
  accumulate_result i result idx test_score =
  Done (idx + length (scores_of result), add_from idx (scores_of result) test_score).
Proof.
  intros Hi. unfold scores_of. revert idx test_score.
  induction result as [|rv res IH]; intros idx ts Hlen; simpl in *.
  - rewrite Nat.add_0_r. reflexivity.
  - rewrite length_app in Hlen.
    rewrite accumulate_blob_later by (auto; lia). cbn [mbind outcome_bind].
    rewrite IH by (rewrite length_add_from; lia).
    rewrite length_app, add_from_app. f_equal. f_equal. lia.
Qed.

(** A later batch with more scores than [test_score] holds writes past its
    end. *)
Lemma accumulate_blob_overrun (i : nat) (result_vec test_score : list R) (idx : nat) :
  i ≠ 0 → length test_score < idx + length result_vec → idx ≤ length test_score →
  accumulate_blob i result_vec idx test_score = Undefined.
Proof.
  intros Hi. revert idx test_score.
  induction result_vec as [|s rv IH]; intros idx ts Hlen Hidx; simpl in *; [lia|].
  destruct (decide (i = 0)) as [|_]; [contradiction|].
  destruct (decide (idx < length ts)) as [Hlt|Hge].
  - destruct (lookup_lt_is_Some_2 ts idx Hlt) as [old Hold].
    unfold vec_at. rewrite Hold. cbn [mbind outcome_bind mret outcome_ret].
    apply IH; rewrite length_insert; lia.
  - rewrite vec_at_ge by lia. reflexivity.
Qed.

Lemma accumulate_result_overrun (i : nat) (result : list (list R))
    (test_score : list R) (idx : nat) :
  i ≠ 0 → length test_score < idx + length (scores_of result) →
  idx ≤ length test_score →
  accumulate_result i result idx test_score = Undefined.
Proof.
  intros Hi. unfold scores_of. revert idx test_score.
  induction result as [|rv res IH]; intros idx ts Hlen Hidx; simpl in *; [lia|].
  rewrite length_app in Hlen.
  destruct (decide (idx + length rv ≤ length ts)) as [Hfit|Hover].
  - rewrite accumulate_blob_later by auto. cbn [mbind outcome_bind].
    apply IH; rewrite length_add_from; lia.
  - rewrite accumulate_blob_overrun by (auto; lia). reflexivity.
Qed.

(** ** The scores after [n] batches *)

Section Scores.
Context (eng : Engine) (net : Net).

Lemma length_test_score_after (n k : nat) :
  same_score_count eng net n → 1 ≤ k ≤ n →
  length (test_score_after eng net k) = length (scores_of (Forward eng net 0)).
Proof.
  intros Hsame. induction k as [|k IH]; intros Hk; [lia|].
  simpl. destruct (decide (k = 0)) as [->|Hne]; [reflexivity|].
  rewrite length_add_from. apply IH. lia.
Qed.

Lemma lookup_test_score_after (n k idx : nat) :
  same_score_count eng net n → 1 ≤ k ≤ n →
  idx < length (scores_of (Forward eng net 0)) →
  test_score_after eng net k !! idx = Some (added_scores eng net idx k).
Proof.
  intros Hsame Hk Hidx. induction k as [|k IH]; [lia|].
  cbn [test_score_after]. destruct (decide (k = 0)) as [->|Hne].
  - simpl.
    destruct (nth_lookup_or_length (scores_of (Forward eng net 0)) idx 0%R);
      [assumption|lia].
  - rewrite lookup_add_from, IH by lia.
    rewrite (Hsame k) by lia.
    destruct (decide (0 ≤ idx < 0 + length (scores_of (Forward eng net 0)))); [|lia].
    rewrite Nat.sub_0_r. destruct k as [|k]; [contradiction|]. reflexivity.
Qed.
End Scores.

(** ** RunForwardBatches *)

Ltac run_step :=
  cbv [mbind mret run_bind run_ret outcome_bind outcome_ret lift get_this put_this
       emit LOG_FATAL delete_Net];
  cbn [this trace fst snd net_param net_weights].

Lemma world_eta (w : world) : {| this := this w; trace := trace w |} = w.
Proof. destruct w; reflexivity. Qed.

Section Batches.
Context (eng : Engine) (net : Net) (do_stats : bool).

(** When every batch has as many scores as the first, the loop over the
    batches returns, with the scores added position by position. *)
Lemma forward_batches_spec (n i : nat) (w : world) :
  same_score_count eng net (i + n) →
  forward_batches eng net do_stats n i (test_score_after eng net i) w =
  ({| this := statistics_after eng net do_stats n i (this w);
      trace := trace w ++ batch_events net do_stats n i |},
   Done (test_score_after eng net (i + n))).
Proof.
  revert i w. induction n as [|n IH]; intros i w Hsame.
  - simpl. rewrite app_nil_r, Nat.add_0_r, world_eta. reflexivity.
  - assert (Hacc : accumulate_result i (Forward eng net i) 0
                     (test_score_after eng net i) =
                   Done (length (scores_of (Forward eng net i)),
                         test_score_after eng net (S i))).
    { destruct (decide (i = 0)) as [->|Hne].
      - rewrite accumulate_result_first. reflexivity.
      - rewrite accumulate_result_later.
        + cbn [test_score_after].
          destruct (decide (i = 0)); [contradiction|reflexivity].
        + exact Hne.
        + rewrite (length_test_score_after eng net (i + S n)) by (auto; lia).
          rewrite (Hsame i) by lia. simpl. lia. }
    cbn [forward_batches statistics_after batch_events].
    replace (i + S n) with (S i + n) in * by lia.
    destruct do_stats; run_step; rewrite Hacc; run_step; rewrite IH by exact Hsame;
      cbn [this trace]; rewrite <- ?app_assoc; reflexivity.
Qed.

(** Whatever its outcome, the loop only runs passes of [net], and leaves
    the object alone when it collects no statistics. *)
Lemma forward_batches_frame (n i : nat) (test_score : list R) (w : world) :
  ∃ k, k ≤ n ∧
    trace (forward_batches eng net do_stats n i test_score w).1 =
      trace w ++ batch_events net do_stats k i ∧
    (do_stats = false →
     this (forward_batches eng net do_stats n i test_score w).1 = this w).
Proof.
  revert i test_score w. induction n as [|n IH]; intros i ts w.
  - exists 0. simpl. rewrite app_nil_r. auto.
  - cbn [forward_batches].
    destruct (accumulate_result i (Forward eng net i) 0 ts) as [[idx ts']| |] eqn:Hacc.
    + set (w1 := if do_stats
                 then {| this := set_statistics
                                   (RangeInLayers eng net i
                                      (layer_names_ (this w), max_in_ (this w),
                                       max_out_ (this w), max_params_ (this w)))
                                   (this w);
                         trace := (trace w ++ [EvForward net i]) ++
                                  [EvRangeInLayers net i] |}
                 else {| this := this w; trace := trace w ++ [EvForward net i] |}).
      destruct (IH (S i) ts' w1) as (k & Hk & Htr & Hthis).
      exists (S k). split; [lia|].
      unfold w1 in *. destruct do_stats; run_step;
        rewrite Htr; cbn [trace batch_events]; rewrite <- ?app_assoc;
        (split; [reflexivity|]); intros Hds; try discriminate Hds.
      rewrite Hthis by reflexivity. reflexivity.
    + exists 1. split; [lia|].
      destruct do_stats; run_step;
        cbn [batch_events]; rewrite <- ?app_assoc, ?app_nil_r;
        (split; [reflexivity|]); intros Hds; try discriminate Hds; reflexivity.
    + exists 1. split; [lia|].
      destruct do_stats; run_step;
        cbn [batch_events]; rewrite <- ?app_assoc, ?app_nil_r;
        (split; [reflexivity|]); intros Hds; try discriminate Hds; reflexivity.
Qed.
End Batches.

Lemma nets_built_app (tr1 tr2 : list event) :
  nets_built (tr1 ++ tr2) = nets_built tr1 ++ nets_built tr2.
Proof.
  induction tr1 as [|e tr1 IH]; [reflexivity|].
  destruct e; simpl; rewrite IH; reflexivity.
Qed.

Lemma nets_built_batch_events (net : Net) (do_stats : bool) (n i : nat) :
  nets_built (batch_events net do_stats n i) = [].
Proof.
  revert i. induction n as [|n IH]; intros i; [reflexivity|].
  simpl. destruct do_stats; simpl; apply IH.
Qed.

Lemma vec_at_int_Done {A} (v : list A) (i : Z) (x : A) :
  (0 ≤ i)%Z → v !! Z.to_nat i = Some x → vec_at_int v i = Done x.
Proof.
  intros Hi Hx. unfold vec_at_int, vec_at.
  destruct (decide (0 ≤ i)%Z); [|contradiction]. rewrite Hx. reflexivity.
Qed.

Lemma vec_at_int_nil {A} (i : Z) : vec_at_int ([] : list A) i = Undefined.
Proof. unfold vec_at_int. destruct (decide (0 ≤ i)%Z); reflexivity. Qed.

Section Run.
Context (eng : Engine) (net : Net) (do_stats : bool).

Lemma RunForwardBatches_spec (iterations score_number : Z) (w : world) :
  (1 ≤ iterations)%Z →
  same_score_count eng net (Z.to_nat iterations) →
  (0 ≤ score_number < Z.of_nat (length (scores_of (Forward eng net 0))))%Z →
  RunForwardBatches eng iterations net do_stats score_number w =
  ({| this := statistics_after eng net do_stats (Z.to_nat iterations) 0 (this w);
      trace := trace w ++ batch_events net do_stats (Z.to_nat iterations) 0 |},
   Done (added_scores eng net (Z.to_nat score_number) (Z.to_nat iterations) /
         IZR iterations)%R).
Proof.
  intros Hit Hsame Hsn. unfold RunForwardBatches.
  change (@nil R) with (test_score_after eng net 0).
  run_step. rewrite forward_batches_spec by exact Hsame. run_step.
  rewrite (vec_at_int_Done _ _ (added_scores eng net (Z.to_nat score_number)
                                  (Z.to_nat iterations))).
  - reflexivity.
  - lia.
  - apply (lookup_test_score_after eng net (Z.to_nat iterations)); [exact Hsame|lia|lia].
Qed.

Lemma RunForwardBatches_none (iterations score_number : Z) (w : world) :
  (iterations ≤ 0)%Z →
  RunForwardBatches eng iterations net do_stats score_number w = (w, Undefined).
Proof.
  intros Hit. unfold RunForwardBatches.
  replace (Z.to_nat iterations) with 0 by lia. run_step.
  cbn [forward_batches]. run_step. rewrite vec_at_int_nil. reflexivity.
Qed.

Lemma RunForwardBatches_frame (iterations score_number : Z) (w : world) :
  ∃ k, k ≤ Z.to_nat iterations ∧
    trace (RunForwardBatches eng iterations net do_stats score_number w).1 =
      trace w ++ batch_events net do_stats k 0 ∧
    (do_stats = false →
     this (RunForwardBatches eng iterations net do_stats score_number w).1 = this w).
Proof.
  destruct (forward_batches_frame eng net do_stats (Z.to_nat iterations) 0 [] w)
    as (k & Hk & Htr & Hthis).
  exists k. split; [exact Hk|]. unfold RunForwardBatches. run_step.
  destruct (forward_batches eng net do_stats (Z.to_nat iterations) 0 [] w)
    as [w1 [ts| |]]; run_step; cbn [fst] in *; auto.
  destruct (vec_at_int ts score_number); run_step; auto.
Qed.
End Run.



(** ** QuantizeNet *)

Lemma statistics_after_frame (eng : Engine) (net : Net) (do_stats : bool)
    (n i : nat) (q : Quantization) :
  let q' := statistics_after eng net do_stats n i q in
  model_ q' = model_ q ∧ weights_ q' = weights_ q ∧
  model_quantized_ q' = model_quantized_ q ∧ iterations_ q' = iterations_ q ∧
  trimming_mode_ q' = trimming_mode_ q ∧ gpus_ q' = gpus_ q ∧
  bitwidth_weights_ q' = bitwidth_weights_ q ∧
  bitwidth_activations_ q' = bitwidth_activations_ q ∧
  il_in_ q' = il_in_ q ∧ il_out_ q' = il_out_ q ∧ il_params_ q' = il_params_ q.
Proof.
  revert i q. induction n as [|n IH]; intros i q; [cbn; repeat split|].
  cbn [statistics_after]. cbn zeta in *.
  destruct do_stats.
  - specialize (IH (S i) (set_statistics
                            (RangeInLayers eng net i
                               (layer_names_ q, max_in_ q, max_out_ q, max_params_ q)) q)).
    exact IH.
  - apply IH.
Qed.

Section QuantizeNetRuns.
Context (eng : Engine) (w : world) (gpus : list Z) (base : NetParameter).

Let q := this w.
Let net := {| net_param := set_phase TEST base; net_weights := Some (weights_ q) |}.
Let setup : list event :=
  [EvProbeRemoved (model_quantized_ q)] ++ gpu_events gpus ++
  [EvReadNetParams (model_ q); EvNewNet (set_phase TEST base);
   EvCopyTrainedLayersFrom (weights_ q)].

Hypothesis Hgood : ofstream_good eng (model_quantized_ q) = true.
Hypothesis Hgpus : gpu_ids eng (gpus_ q) = Done gpus.
Hypothesis Hread :
  ReadNetParamsFromTextFileOrDie eng (model_ q) empty_net_param = Some base.

(** With no iteration to run, the run stops in [RunForwardBatches] on undefined
    behaviour: no pass is run and no failure is reported. *)
Lemma QuantizeNet_no_iterations :
  (iterations_ q ≤ 0)%Z →
  QuantizeNet eng w = ({| this := q; trace := trace w ++ setup |}, Undefined).
Proof.
  intros Hit. unfold QuantizeNet, CheckWritePermissions, SetGpu, new_Net_of_file,
    read_net_params, new_Net, CopyTrainedLayersFrom.
  unfold setup, net, q in *. run_step. rewrite Hgood. run_step. rewrite Hgpus.
  destruct gpus; run_step; rewrite Hread; run_step;
    rewrite RunForwardBatches_none by exact Hit;
    cbn [gpu_events app]; rewrite <- ?app_assoc; reflexivity.
Qed.

(** With a trimming mode that is not known, the failure is reported after
    the baseline passes and the collection of the statistics. *)
Lemma QuantizeNet_unknown_mode :
  trimming_mode_ q ≠ "dynamic_fixed_point" →
  (1 ≤ iterations_ q)%Z →
  same_score_count eng net (Z.to_nat (iterations_ q)) →
  0 < length (scores_of (Forward eng net 0)) →
  QuantizeNet eng w =
  ({| this := set_test_score_baseline
                (added_scores eng net 0 (Z.to_nat (iterations_ q)) /
                 IZR (iterations_ q))%R
                (statistics_after eng net true (Z.to_nat (iterations_ q)) 0 q);
      trace := trace w ++ setup ++
               batch_events net true (Z.to_nat (iterations_ q)) 0 ++
               [EvDeleteNet net] |},
   Fatal ("Unknown trimming mode: " +:+ trimming_mode_ q)).
Proof.
  intros Hmode Hit Hsame Hlen.
  pose proof (statistics_after_frame eng net true (Z.to_nat (iterations_ q)) 0 q)
    as (_ & _ & _ & _ & Hm & _).
  unfold QuantizeNet, CheckWritePermissions, SetGpu, new_Net_of_file,
    read_net_params, new_Net, CopyTrainedLayersFrom.
  unfold setup, net, q in *. run_step. rewrite Hgood. run_step. rewrite Hgpus.
  destruct gpus; run_step; rewrite Hread; run_step;
    rewrite RunForwardBatches_spec
      by (try assumption; unfold default_score_number; lia);
    run_step; cbn [trimming_mode_ set_test_score_baseline]; rewrite Hm;
    (case_decide; [contradiction|]);
    unfold default_score_number; cbn [gpu_events app Z.to_nat];
    rewrite <- ?app_assoc; reflexivity.
Qed.
End QuantizeNetRuns.

(** C3, as the code has it.  When the output path is writable, the device
    ids parse, the model file reads, and the baseline passes return (at least
    one iteration, every batch with as many scores as the first, at least
    one), a trimming mode other than "dynamic_fixed_point" is reported as a
    fatal error only after the write probe, the device selection and all the
    baseline forward passes with their collection of statistics; no candidate
    net is built. *)
Theorem unknown_trimming_mode_reported_after_baseline (eng : Engine) (w : world)
    (gpus : list Z) (base : NetParameter) :
  let q := this w in
  let net := {| net_param := set_phase TEST base; net_weights := Some (weights_ q) |} in
  let n := Z.to_nat (iterations_ q) in
  ofstream_good eng (model_quantized_ q) = true →
  gpu_ids eng (gpus_ q) = Done gpus →
  ReadNetParamsFromTextFileOrDie eng (model_ q) empty_net_param = Some base →
  trimming_mode_ q ≠ "dynamic_fixed_point" →
  (1 ≤ iterations_ q)%Z →
  same_score_count eng net n →
  0 < length (scores_of (Forward eng net 0)) →
  (QuantizeNet eng w).2 = Fatal ("Unknown trimming mode: " +:+ trimming_mode_ q) ∧
  trace (QuantizeNet eng w).1 =
    trace w ++
    ([EvProbeRemoved (model_quantized_ q)] ++ gpu_events gpus ++
     [EvReadNetParams (model_ q); EvNewNet (set_phase TEST base);
      EvCopyTrainedLayersFrom (weights_ q)]) ++
    batch_events net true n 0 ++ [EvDeleteNet net] ∧
  batch_events net true n 0 =
    EvForward net 0 :: EvRangeInLayers net 0 :: batch_events net true (n - 1) 1 ∧
  nets_built (trace (QuantizeNet eng w).1) =
    nets_built (trace w) ++ [set_phase TEST base].
Proof.
  intros q net n Hgood Hgpus Hread Hmode Hit Hsame Hlen.
  rewrite (QuantizeNet_unknown_mode eng w gpus base) by assumption.
  cbn [fst snd trace]. fold q net n. repeat split.
  - destruct n as [|n'] eqn:Hn; [lia|].
    replace (S n' - 1) with n' by lia. reflexivity.
  - rewrite !nets_built_app, nets_built_batch_events.
    destruct gpus as [|id gpus']; cbn; rewrite ?app_nil_r; reflexivity.
Qed.

Lemma unknown_trimming_mode_reported_after_baseline_witness :
  let w := ex_world "minifloat" 2 in
  (QuantizeNet ex_eng w).2 = Fatal ("Unknown trimming mode: " +:+ "minifloat") ∧
  trace (QuantizeNet ex_eng w).1 =
    [] ++
    ([EvProbeRemoved "quantized.prototxt"] ++ gpu_events [] ++
     [EvReadNetParams "model.prototxt"; EvNewNet (set_phase TEST ex_param);
      EvCopyTrainedLayersFrom "weights.caffemodel"]) ++
    batch_events ex_net true 2 0 ++ [EvDeleteNet ex_net] ∧
  batch_events ex_net true 2 0 =
    EvForward ex_net 0 :: EvRangeInLayers ex_net 0 :: batch_events ex_net true (2 - 1) 1 ∧
  nets_built (trace (QuantizeNet ex_eng w).1) = [] ++ [set_phase TEST ex_param].
Proof.
  apply (unknown_trimming_mode_reported_after_baseline ex_eng
           (ex_world "minifloat" 2) [] ex_param).
  - reflexivity.
  - reflexivity.
  - reflexivity.
  - discriminate.
  - simpl. lia.
  - intros i _. reflexivity.
  - simpl. lia.
Defined.

(** C3 as stated fails: with the trimming mode "minifloat" the run ends in a
    fatal error, and a forward pass and a collection of statistics come
    before it. *)
Lemma unknown_trimming_mode_not_reported_first :
  let r := QuantizeNet ex_eng (ex_world "minifloat" 1) in
  trimming_mode_ (this (ex_world "minifloat" 1)) ≠ "dynamic_fixed_point" ∧
  is_Fatal r.2 ∧
  EvForward ex_net 0 ∈ trace r.1 ∧ EvRangeInLayers ex_net 0 ∈ trace r.1.
Proof.
  cbn zeta. split; [discriminate|]. split; [vm_compute; exact I|].
  assert (Htr : trace (QuantizeNet ex_eng (ex_world "minifloat" 1)).1 =
                [EvProbeRemoved "quantized.prototxt"; EvSetMode false;
                 EvReadNetParams "model.prototxt"; EvNewNet (set_phase TEST ex_param);
                 EvCopyTrainedLayersFrom "weights.caffemodel";
                 EvForward ex_net 0; EvRangeInLayers ex_net 0; EvDeleteNet ex_net])
    by reflexivity.
  rewrite Htr, !elem_of_cons. auto 10.
Qed.

(** C5, as the code has it.  With no iteration to run (zero, or a negative
    number) nothing is rejected: [RunForwardBatches] runs no pass and reads
    the designated score in an empty vector, which is undefined behaviour,
    and so does the whole run after the write probe, the device selection
    and the construction of the baseline net. *)
Theorem zero_iterations_not_rejected (eng : Engine) (w : world)
    (gpus : list Z) (base : NetParameter) :
  let q := this w in
  ofstream_good eng (model_quantized_ q) = true →
  gpu_ids eng (gpus_ q) = Done gpus →
  ReadNetParamsFromTextFileOrDie eng (model_ q) empty_net_param = Some base →
  (iterations_ q ≤ 0)%Z →
  (∀ (net : Net) (do_stats : bool) (score_number : Z) (w' : world),
     RunForwardBatches eng (iterations_ q) net do_stats score_number w' =
       (w', Undefined)) ∧
  QuantizeNet eng w =
    ({| this := q;
        trace := trace w ++
                 [EvProbeRemoved (model_quantized_ q)] ++ gpu_events gpus ++
                 [EvReadNetParams (model_ q); EvNewNet (set_phase TEST base);
                  EvCopyTrainedLayersFrom (weights_ q)] |}, Undefined).
Proof.
  intros q Hgood Hgpus Hread Hit. split.
  - intros net do_stats score_number w'. apply RunForwardBatches_none, Hit.
  - apply QuantizeNet_no_iterations; assumption.
Qed.

Lemma zero_iterations_not_rejected_witness :
  let w := ex_world "dynamic_fixed_point" 0 in
  (∀ (net : Net) (do_stats : bool) (score_number : Z) (w' : world),
     RunForwardBatches ex_eng (iterations_ (this w)) net do_stats score_number w' =
       (w', Undefined)) ∧
  QuantizeNet ex_eng w =
    ({| this := this w;
        trace := trace w ++
                 [EvProbeRemoved (model_quantized_ (this w))] ++ gpu_events [] ++
                 [EvReadNetParams (model_ (this w)); EvNewNet (set_phase TEST ex_param);
                  EvCopyTrainedLayersFrom (weights_ (this w))] |}, Undefined).
Proof.
  apply (zero_iterations_not_rejected ex_eng (ex_world "dynamic_fixed_point" 0)
           [] ex_param); reflexivity || (simpl; lia).
Defined.

(** C5 as stated fails: a run with [iterations_ = 0] does not end in a
    reported error. *)
Lemma zero_iterations_no_configuration_error :
  iterations_ (this (ex_world "dynamic_fixed_point" 0)) = 0%Z ∧
  ¬ is_Fatal (QuantizeNet ex_eng (ex_world "dynamic_fixed_point" 0)).2.
Proof. split; [reflexivity|]. intros H. exact H. Qed.

(** ** Quantize2DynamicFixedPoint *)

Lemma integer_lengths_at_frame (q q' : Quantization) (i : nat) :
  integer_lengths_at q i = Done q' →
  model_ q' = model_ q ∧ weights_ q' = weights_ q ∧
  model_quantized_ q' = model_quantized_ q ∧ iterations_ q' = iterations_ q ∧
  bitwidth_weights_ q' = bitwidth_weights_ q ∧
  bitwidth_activations_ q' = bitwidth_activations_ q ∧
  layer_names_ q' = layer_names_ q ∧
  max_in_ q' = max_in_ q ∧ max_out_ q' = max_out_ q ∧ max_params_ q' = max_params_ q.
Proof.
  unfold integer_lengths_at. intros H.
  repeat match type of H with
         | context [vec_at ?v ?i] => destruct (vec_at v i); cbn in H; try discriminate H
         | context [il_in_of ?m] => destruct (il_in_of m); cbn in H; try discriminate H
         | context [il_out_of ?m] => destruct (il_out_of m); cbn in H; try discriminate H
         | context [il_params_of ?m] =>
             destruct (il_params_of m); cbn in H; try discriminate H
         end.
  injection H as <-. cbn. repeat split.
Qed.

Lemma integer_lengths_frame (q q' : Quantization) :
  integer_lengths q = Done q' →
  model_ q' = model_ q ∧ weights_ q' = weights_ q ∧
  model_quantized_ q' = model_quantized_ q ∧ iterations_ q' = iterations_ q ∧
  bitwidth_weights_ q' = bitwidth_weights_ q ∧
  bitwidth_activations_ q' = bitwidth_activations_ q ∧
  layer_names_ q' = layer_names_ q ∧
  max_in_ q' = max_in_ q ∧ max_out_ q' = max_out_ q ∧ max_params_ q' = max_params_ q.
Proof.
  unfold integer_lengths. generalize (length (layer_names_ q)) as n.
  generalize 0 as i. intros i n. revert i q.
  induction n as [|n IH]; intros i q; cbn [integer_lengths_loop].
  - intros [= <-]. repeat split.
  - destruct (integer_lengths_at q i) as [q1| |] eqn:Hat; try discriminate.
    cbn [mbind outcome_bind]. intros H.
    apply IH in H. apply integer_lengths_at_frame in Hat.
    destruct H as (? & ? & ? & ? & ? & ? & ? & ? & ? & ?).
    destruct Hat as (? & ? & ? & ? & ? & ? & ? & ? & ? & ?).
    repeat split; congruence.
Qed.

(** One call of [RunForwardBatches] without statistics, whatever its
    outcome: the object is kept and only passes are added to the trace. *)
Ltac run_batches :=
  match goal with
  | |- context [RunForwardBatches ?e ?it ?net false ?sn ?w0] =>
      let k := fresh "k" in
      let Htr := fresh "Htr" in
      let Hthis := fresh "Hthis" in
      destruct (RunForwardBatches_frame e net false it sn w0) as (k & _ & Htr & Hthis);
      specialize (Hthis eq_refl);
      destruct (RunForwardBatches e it net false sn w0) as [? [?| |]];
      cbn [fst this trace] in Htr, Hthis; run_step; [|intros; discriminate ..];
      rewrite ?Hthis, ?Htr
  end.

Tactic Notation "run_edit" ident(c) ident(He) :=
  match goal with
  | |- context [EditNetDescriptionDynamicFixedPoint ?q ?p ?a ?b ?c1 ?c2 ?c3 ?c4] =>
      destruct (EditNetDescriptionDynamicFixedPoint q p a b c1 c2 c3 c4)
        as [c| |] eqn:He; run_step; [|intros; discriminate ..]
  end.

Section Candidates.
Context (eng : Engine) (w : world) (base : NetParameter).

Hypothesis Hread :
  ∀ old, ReadNetParamsFromTextFileOrDie eng (model_ (this w)) old = Some base.

(** A run that returns has built four nets, each from the edit of the
    description just read from the model file. *)
Lemma Quantize2_candidates :
  (Quantize2DynamicFixedPoint eng w).2 = Done tt →
  ∃ q1 c1 c2 c3 c4,
    integer_lengths (this w) = Done q1 ∧
    EditNetDescriptionDynamicFixedPoint q1 (set_phase TEST base)
      "Convolution" "Parameters"
      (bitwidth_weights_ (this w)) (-1) (-1) (-1) = Done c1 ∧
    EditNetDescriptionDynamicFixedPoint q1 (set_phase TEST base)
      "InnerProduct" "Parameters"
      (-1) (bitwidth_weights_ (this w)) (-1) (-1) = Done c2 ∧
    EditNetDescriptionDynamicFixedPoint q1 (set_phase TEST base)
      "Convolution_and_InnerProduct" "Activations"
      (-1) (-1) (bitwidth_activations_ (this w)) (bitwidth_activations_ (this w))
      = Done c3 ∧
    EditNetDescriptionDynamicFixedPoint q1 (set_phase TEST base)
      "Convolution_and_InnerProduct" "Parameters_and_Activations"
      (bitwidth_weights_ (this w)) (bitwidth_weights_ (this w))
      (bitwidth_activations_ (this w)) (bitwidth_activations_ (this w))
      = Done c4 ∧
    nets_built (trace (Quantize2DynamicFixedPoint eng w).1) =
      nets_built (trace w) ++ [c1; c2; c3; c4] ∧
    last (trace (Quantize2DynamicFixedPoint eng w).1) =
      Some (EvWriteProtoToTextFile (release_state c4) (model_quantized_ (this w))).
Proof.
  unfold Quantize2DynamicFixedPoint, read_net_params, new_Net, CopyTrainedLayersFrom.
  run_step.
  destruct (integer_lengths (this w)) as [q1| |] eqn:Hil; run_step;
    [|intros; discriminate ..].
  destruct (integer_lengths_frame _ _ Hil)
    as (Hmodel & Hweights & Hout & Hit & Hbww & Hbwa & _).
  rewrite ?Hmodel, ?Hbww, ?Hbwa, ?Hout, ?Hread. run_step.
  run_edit c1 He1. run_batches.
  rewrite ?Hmodel, ?Hbww, ?Hbwa, ?Hout, ?Hread. run_step. run_edit c2 He2. run_batches.
  rewrite ?Hmodel, ?Hbww, ?Hbwa, ?Hout, ?Hread. run_step. run_edit c3 He3. run_batches.
  unfold vec_at. cbn [lookup list_lookup app]. run_step.
  cbn [model_ set_bit_widths bw_conv_params_ bw_fc_params_ bw_in_ bw_out_ weights_
       iterations_ model_quantized_].
  rewrite ?Hmodel, ?Hbww, ?Hbwa, ?Hout, ?Hread. run_step. run_edit c4 He4. run_batches.
  intros _. exists q1, c1, c2, c3, c4.
  rewrite (Edit_same_lookups _ q1) in He4 by reflexivity.
  rewrite ?Hout. repeat split; try assumption.
  - rewrite !nets_built_app, !nets_built_batch_events. cbn.
    rewrite !app_nil_r, <- !app_assoc. reflexivity.
  - apply last_snoc.
Qed.
End Candidates.

(** An edit for one aspect leaves the fields of the other aspect alone. *)
Lemma quantize_layer_keeps (q : Quantization) (net_part ty : string)
    (bw bw_in bw_out : Z) (l l' : LayerParameter) :
  quantize_layer q net_part ty bw bw_in bw_out l = Done l' →
  (found net_part "Parameters" = false → params_fields l' = params_fields l) ∧
  (found net_part "Activations" = false →
   activations_fields l' = activations_fields l).
Proof.
  unfold quantize_layer, quantize_parameters, quantize_activations,
    params_fields, activations_fields.
  destruct l as [n t oq r].
  destruct (found net_part "Parameters"), (found net_part "Activations");
    run_setters; intros H; case_calls H; injection H as <-;
    split; intros E; try discriminate E; destruct oq as [[]|]; reflexivity.
Qed.

Lemma Edit_keeps (q : Quantization) (param param' : NetParameter)
    (layers_2_quantize net_part : string) (bw_conv bw_fc bw_in bw_out : Z)
    (i : nat) (l : LayerParameter) :
  EditNetDescriptionDynamicFixedPoint q param layers_2_quantize net_part
    bw_conv bw_fc bw_in bw_out = Done param' →
  layer param !! i = Some l →
  ∃ l', layer param' !! i = Some l' ∧
    (found net_part "Parameters" = false → params_fields l' = params_fields l) ∧
    (found net_part "Activations" = false →
     activations_fields l' = activations_fields l).
Proof.
  intros (ls & Hall & ->)%Edit_Done Hl. cbn [layer with_layer].
  destruct (Forall2_lookup_l _ _ _ _ _ Hall Hl) as (l' & Hl' & Hb).
  exists l'. split; [exact Hl'|].
  destruct (edit_layer_cases _ _ _ _ _ _ _ _ _ Hb) as [[_ Hq]|[(_ & _ & Hq)|[_ ->]]].
  - exact (quantize_layer_keeps _ _ _ _ _ _ _ _ Hq).
  - exact (quantize_layer_keeps _ _ _ _ _ _ _ _ Hq).
  - auto.
Qed.

(** C7.  When reading the model file replaces the content of the
    description it is read into, a run of [Quantize2DynamicFixedPoint] that
    returns has built exactly four nets, each from the edit of the
    description just read (its phase set), none from a description edited
    before.  In the inner-product candidate the layers whose type holds
    neither "InnerProduct" nor "FcRistretto", the convolution layers among
    them, are those of the base; in the convolution candidate the layers
    whose type does not hold "Convolution" are those of the base; both keep
    the activation fields of the base and the activation candidate keeps its
    parameter fields. *)
Theorem candidates_built_from_reloaded_base (eng : Engine) (w : world)
    (base : NetParameter) :
  (∀ old, ReadNetParamsFromTextFileOrDie eng (model_ (this w)) old = Some base) →
  (Quantize2DynamicFixedPoint eng w).2 = Done tt →
  ∃ q1 c1 c2 c3 c4,
    integer_lengths (this w) = Done q1 ∧
    EditNetDescriptionDynamicFixedPoint q1 (set_phase TEST base)
      "Convolution" "Parameters"
      (bitwidth_weights_ (this w)) (-1) (-1) (-1) = Done c1 ∧
    EditNetDescriptionDynamicFixedPoint q1 (set_phase TEST base)
      "InnerProduct" "Parameters"
      (-1) (bitwidth_weights_ (this w)) (-1) (-1) = Done c2 ∧
    EditNetDescriptionDynamicFixedPoint q1 (set_phase TEST base)
      "Convolution_and_InnerProduct" "Activations"
      (-1) (-1) (bitwidth_activations_ (this w)) (bitwidth_activations_ (this w))
      = Done c3 ∧
    EditNetDescriptionDynamicFixedPoint q1 (set_phase TEST base)
      "Convolution_and_InnerProduct" "Parameters_and_Activations"
      (bitwidth_weights_ (this w)) (bitwidth_weights_ (this w))
      (bitwidth_activations_ (this w)) (bitwidth_activations_ (this w))
      = Done c4 ∧
    nets_built (trace (Quantize2DynamicFixedPoint eng w).1) =
      nets_built (trace w) ++ [c1; c2; c3; c4] ∧
    (∀ i l, layer base !! i = Some l →
       found (type l) "InnerProduct" = false → found (type l) "FcRistretto" = false →
       layer c2 !! i = Some l) ∧
    (∀ i l, layer base !! i = Some l →
       found (type l) "Convolution" = false → layer c1 !! i = Some l) ∧
    (∀ i l, layer base !! i = Some l →
       ∃ l1 l2 l3, layer c1 !! i = Some l1 ∧ layer c2 !! i = Some l2 ∧
         layer c3 !! i = Some l3 ∧
         activations_fields l1 = activations_fields l ∧
         activations_fields l2 = activations_fields l ∧
         params_fields l3 = params_fields l).
Proof.
  intros Hread Hdone.
  destruct (Quantize2_candidates eng w base Hread Hdone)
    as (q1 & c1 & c2 & c3 & c4 & Hil & H1 & H2 & H3 & H4 & Hnets & _).
  exists q1, c1, c2, c3, c4. repeat split; try assumption.
  - intros i l Hl Hip Hfc.
    apply (Edit_unmatched _ _ _ _ _ _ _ _ _ i l H2); [exact Hl|].
    unfold matches_category, matches_convolution, matches_inner_product.
    rewrite Hip, Hfc. reflexivity.
  - intros i l Hl Hc.
    apply (Edit_unmatched _ _ _ _ _ _ _ _ _ i l H1); [exact Hl|].
    unfold matches_category, matches_convolution, matches_inner_product.
    rewrite Hc. reflexivity.
  - intros i l Hl.
    destruct (Edit_keeps _ _ _ _ _ _ _ _ _ i l H1 Hl) as (l1 & Hl1 & _ & HA1).
    destruct (Edit_keeps _ _ _ _ _ _ _ _ _ i l H2 Hl) as (l2 & Hl2 & _ & HA2).
    destruct (Edit_keeps _ _ _ _ _ _ _ _ _ i l H3 Hl) as (l3 & Hl3 & HP3 & _).
    exists l1, l2, l3. repeat split; auto.
Qed.

Lemma ex_il_of_1 :
  il_in_of 1 = Done 2%Z ∧ il_out_of 1 = Done 2%Z ∧ il_params_of 1 = Done 2%Z.
Proof.
  assert (H2 : Zceil (ln (1 + 1e-8 + 1) / ln 2) = 2%Z).
  { apply (Zceil_log2 _ 2). simpl. lra. }
  repeat split.
  - unfold il_in_of. rewrite log2_pos by lra. rewrite to_int_ceil, H2. reflexivity.
  - unfold il_out_of. rewrite log2_pos by lra. rewrite to_int_ceil, H2. reflexivity.
  - unfold il_params_of. rewrite log2_pos by lra. cbn [dadd].
    rewrite to_int_ceil, ln_1.
    replace (Zceil (0 / ln 2 + 1e-8 + 1)) with 2%Z; [reflexivity|].
    symmetry. apply Zceil_eq. unfold Rdiv. rewrite Rmult_0_l. simpl. lra.
Qed.

Lemma ex_integer_lengths : integer_lengths ex_measured = Done ex_lengths.
Proof.
  destruct ex_il_of_1 as (Hi & Ho & Hp).
  unfold integer_lengths. cbn [length layer_names_ ex_measured set_statistics fst snd
                               integer_lengths_loop].
  unfold integer_lengths_at.
  cbn [vec_at lookup list_lookup max_in_ max_out_ max_params_ ex_measured
       set_statistics push_il_in push_il_out push_il_params fst snd
       mbind outcome_bind mret outcome_ret].
  rewrite Hi, Ho, Hp.
  cbn [vec_at lookup list_lookup max_in_ max_out_ max_params_ ex_measured
       set_statistics push_il_in push_il_out push_il_params fst snd
       mbind outcome_bind mret outcome_ret].
  rewrite Hi, Ho, Hp. reflexivity.
Qed.

Lemma ex_Quantize2_returns :
  (Quantize2DynamicFixedPoint ex_eng ex_measured_world).2 = Done tt.
Proof.
  unfold Quantize2DynamicFixedPoint. run_step.
  cbn [ex_measured_world this]. rewrite ex_integer_lengths. vm_compute. reflexivity.
Qed.

Lemma candidates_built_from_reloaded_base_witness :
  ∃ q1 c1 c2 c3 c4,
    integer_lengths (this ex_measured_world) = Done q1 ∧
    EditNetDescriptionDynamicFixedPoint q1 (set_phase TEST ex_param)
      "Convolution" "Parameters"
      (bitwidth_weights_ (this ex_measured_world)) (-1) (-1) (-1) = Done c1 ∧
    EditNetDescriptionDynamicFixedPoint q1 (set_phase TEST ex_param)
      "InnerProduct" "Parameters"
      (-1) (bitwidth_weights_ (this ex_measured_world)) (-1) (-1) = Done c2 ∧
    EditNetDescriptionDynamicFixedPoint q1 (set_phase TEST ex_param)
      "Convolution_and_InnerProduct" "Activations"
      (-1) (-1) (bitwidth_activations_ (this ex_measured_world))
      (bitwidth_activations_ (this ex_measured_world)) = Done c3 ∧
    EditNetDescriptionDynamicFixedPoint q1 (set_phase TEST ex_param)
      "Convolution_and_InnerProduct" "Parameters_and_Activations"
      (bitwidth_weights_ (this ex_measured_world))
      (bitwidth_weights_ (this ex_measured_world))
      (bitwidth_activations_ (this ex_measured_world))
      (bitwidth_activations_ (this ex_measured_world)) = Done c4 ∧
    nets_built (trace (Quantize2DynamicFixedPoint ex_eng ex_measured_world).1) =
      nets_built (trace ex_measured_world) ++ [c1; c2; c3; c4] ∧
    (∀ i l, layer ex_param !! i = Some l →
       found (type l) "InnerProduct" = false → found (type l) "FcRistretto" = false →
       layer c2 !! i = Some l) ∧
    (∀ i l, layer ex_param !! i = Some l →
       found (type l) "Convolution" = false → layer c1 !! i = Some l) ∧
    (∀ i l, layer ex_param !! i = Some l →
       ∃ l1 l2 l3, layer c1 !! i = Some l1 ∧ layer c2 !! i = Some l2 ∧
         layer c3 !! i = Some l3 ∧
         activations_fields l1 = activations_fields l ∧
         activations_fields l2 = activations_fields l ∧
         params_fields l3 = params_fields l).
Proof.
  apply (candidates_built_from_reloaded_base ex_eng ex_measured_world ex_param).
  - intros old. reflexivity.
  - exact ex_Quantize2_returns.
Defined.

(** * Further properties of the code *)

(** ** Integer lengths of the activations (lines 157-158) *)









(** ** Integer length of the parameters (line 159) *)






(** ** More on EditNetDescriptionDynamicFixedPoint (lines 260-312) *)

Lemma lookups_recorded (q : Quantization) (n : string) :
  lengths_recorded q → n ∈ layer_names_ q →
  ∃ ilp ili ilo,
    GetIntegerLengthParams q n = Done ilp ∧ ilp ∈ il_params_ q ∧
    GetIntegerLengthIn q n = Done ili ∧ ili ∈ il_in_ q ∧
    GetIntegerLengthOut q n = Done ilo ∧ ilo ∈ il_out_ q.
Proof.
  intros (Hi & Ho & Hp) Hin. pose proof (std_find_lt _ _ Hin) as Hlt.
  destruct (lookup_lt_is_Some_2 (il_params_ q) _ ltac:(rewrite Hp; exact Hlt))
    as [ilp Hilp].
  destruct (lookup_lt_is_Some_2 (il_in_ q) _ ltac:(rewrite Hi; exact Hlt))
    as [ili Hili].
  destruct (lookup_lt_is_Some_2 (il_out_ q) _ ltac:(rewrite Ho; exact Hlt))
    as [ilo Hilo].
  exists ilp, ili, ilo.
  unfold GetIntegerLengthParams, GetIntegerLengthIn, GetIntegerLengthOut.
  rewrite !vec_at_Done.
  repeat split; try assumption; eapply list_elem_of_lookup_2; eassumption.
Qed.

Lemma lookups_unrecorded (q : Quantization) (n : string) :
  lengths_recorded q → n ∉ layer_names_ q →
  GetIntegerLengthParams q n = Undefined ∧
  GetIntegerLengthIn q n = Undefined ∧
  GetIntegerLengthOut q n = Undefined.
Proof.
  intros (Hi & Ho & Hp) Hnot. pose proof (std_find_not_In _ _ Hnot) as Hpos.
  unfold GetIntegerLengthParams, GetIntegerLengthIn, GetIntegerLengthOut.
  rewrite Hpos. repeat split; apply vec_at_ge; lia.
Qed.

Lemma small_sub (a b : Z) : small a → small b → in_int (a - b).
Proof. unfold small, in_int, INT_MIN, INT_MAX. lia. Qed.

Lemma Forall2_total {A B} (R : A → B → Prop) (l : list A) :
  (∀ x, x ∈ l → ∃ y, R x y) → ∃ k, Forall2 R l k.
Proof.
  induction l as [|x l IH]; intros H.
  - exists []. constructor.
  - destruct (H x ltac:(left)) as [y Hy].
    destruct IH as [k Hk]; [intros x' Hx'; apply H; right; exact Hx'|].
    exists (y :: k). constructor; assumption.
Qed.

(** X3.  The edit returns a description when the object holds one integer
    length of each kind per recorded name, every layer that passes a category
    test is recorded, and the bit-widths and the integer lengths are small
    enough for the subtractions. *)
Theorem edit_returns_on_recorded_layers (q : Quantization) (param : NetParameter)
    (layers_2_quantize net_part : string) (bw_conv bw_fc bw_in bw_out : Z) :
  lengths_recorded q →
  (∀ l, l ∈ layer param →
        matches_category layers_2_quantize (type l) = true →
        name l ∈ layer_names_ q) →
  small bw_conv → small bw_fc → small bw_in → small bw_out →
  Forall small (il_params_ q) → Forall small (il_in_ q) → Forall small (il_out_ q) →
  ∃ param',
    EditNetDescriptionDynamicFixedPoint q param layers_2_quantize net_part
      bw_conv bw_fc bw_in bw_out = Done param'.
Proof.
  intros Hrec Hnames Sc Sf Si So Sp Sin Sout.
  destruct (Forall2_total
              (λ l l', edit_layer q layers_2_quantize net_part
                         bw_conv bw_fc bw_in bw_out l = Done l') (layer param))
    as [ls Hls].
  - intros l Hl. apply edit_layer_returns. intros Hm.
    destruct (lookups_recorded q (name l) Hrec (Hnames l Hl Hm))
      as (ilp & ili & ilo & Hp & Hpin & Hi & Hiin & Ho & Hoin).
    rewrite Forall_forall in Sp, Sin, Sout.
    exists ilp, ili, ilo. repeat split; try assumption; apply small_sub; auto.
  - exists (with_layer ls param). apply Edit_Done. exists ls. auto.
Qed.

Lemma edit_returns_on_recorded_layers_witness :
  ∃ param',
    EditNetDescriptionDynamicFixedPoint ex_q ex_param
      "Convolution_and_InnerProduct" "Parameters_and_Activations" 8 8 8 8 =
    Done param'.
Proof.
  apply (edit_returns_on_recorded_layers ex_q ex_param).
  - repeat split.
  - intros l Hl Hm. cbn in Hl. rewrite !elem_of_cons, elem_of_nil in Hl.
    destruct Hl as [->|[->|[->|[->|[]]]]]; try discriminate Hm; cbn;
      rewrite !elem_of_cons; auto.
  - unfold small; lia.
  - unfold small; lia.
  - unfold small; lia.
  - unfold small; lia.
  - repeat constructor; unfold small; lia.
  - repeat constructor; unfold small; lia.
  - repeat constructor; unfold small; lia.
Defined.

(** The edit reports no error of its own. *)
Lemma quantize_layer_not_Fatal (q : Quantization) (net_part ty : string)
    (bw bw_in bw_out : Z) (l : LayerParameter) :
  ¬ is_Fatal (quantize_layer q net_part ty bw bw_in bw_out l).
Proof.
  unfold quantize_layer, quantize_parameters, quantize_activations,
    GetIntegerLengthParams, GetIntegerLengthIn, GetIntegerLengthOut, vec_at, int_sub.
  destruct (found net_part "Parameters"), (found net_part "Activations");
    cbn [mbind outcome_bind mret outcome_ret name set_type set_fl_params
         set_bw_params set_fl_layer_in set_bw_layer_in with_quantization_param];
    repeat (match goal with
            | |- context [match ?x with _ => _ end] =>
                match x with
                | context [match _ with _ => _ end] => fail 1
                | _ => destruct x
                end
            end; cbn [mbind outcome_bind mret outcome_ret name set_type
                      set_fl_params set_bw_params set_fl_layer_in set_bw_layer_in
                      with_quantization_param]);
    intros H; exact H.
Qed.

Lemma edit_layer_not_Fatal (q : Quantization) (layers_2_quantize net_part : string)
    (bw_conv bw_fc bw_in bw_out : Z) (l : LayerParameter) :
  ¬ is_Fatal (edit_layer q layers_2_quantize net_part bw_conv bw_fc bw_in bw_out l).
Proof.
  rewrite edit_layer_staged.
  destruct (matches_convolution layers_2_quantize (type l)).
  - pose proof (quantize_layer_not_Fatal q net_part "ConvolutionRistretto"
                  bw_conv bw_in bw_out l) as H1.
    destruct (quantize_layer q net_part "ConvolutionRistretto" bw_conv bw_in bw_out l)
      as [l1| |]; cbn [mbind outcome_bind] in *; auto.
    destruct (matches_inner_product layers_2_quantize (type l1)); [|auto].
    apply quantize_layer_not_Fatal.
  - cbn [mbind outcome_bind mret outcome_ret].
    destruct (matches_inner_product layers_2_quantize (type l)); [|auto].
    apply quantize_layer_not_Fatal.
Qed.

Lemma edit_loop_not_Fatal (q : Quantization) (layers_2_quantize net_part : string)
    (bw_conv bw_fc bw_in bw_out : Z) (n i : nat) (param : NetParameter) :
  ¬ is_Fatal (edit_loop q layers_2_quantize net_part bw_conv bw_fc bw_in bw_out
                n i param).
Proof.
  revert i param. induction n as [|n IH]; intros i param; [auto|].
  cbn [edit_loop]. unfold edit_layer_at, vec_at.
  destruct (layer param !! i) as [l|]; cbn [mbind outcome_bind]; [|auto].
  pose proof (edit_layer_not_Fatal q layers_2_quantize net_part
                bw_conv bw_fc bw_in bw_out l) as Hl.
  destruct (edit_layer q layers_2_quantize net_part bw_conv bw_fc bw_in bw_out l);
    cbn [mbind outcome_bind mret outcome_ret] in *; auto.
Qed.

Lemma Edit_Undefined (q : Quantization) (param : NetParameter)
    (layers_2_quantize net_part : string) (bw_conv bw_fc bw_in bw_out : Z) :
  (∀ param', EditNetDescriptionDynamicFixedPoint q param layers_2_quantize net_part
               bw_conv bw_fc bw_in bw_out ≠ Done param') →
  EditNetDescriptionDynamicFixedPoint q param layers_2_quantize net_part
    bw_conv bw_fc bw_in bw_out = Undefined.
Proof.
  intros Hnot.
  pose proof (edit_loop_not_Fatal q layers_2_quantize net_part bw_conv bw_fc bw_in
                bw_out (length (layer param)) 0 param) as HF.
  unfold EditNetDescriptionDynamicFixedPoint in *.
  destruct (edit_loop q layers_2_quantize net_part bw_conv bw_fc bw_in bw_out
              (length (layer param)) 0 param) as [p'| |].
  - exfalso. exact (Hnot p' eq_refl).
  - exfalso. exact (HF I).
  - reflexivity.
Qed.

Lemma quantize_layer_unrecorded (q : Quantization) (net_part ty : string)
    (bw bw_in bw_out : Z) (l : LayerParameter) :
  lengths_recorded q → name l ∉ layer_names_ q →
  found net_part "Parameters" || found net_part "Activations" = true →
  quantize_layer q net_part ty bw bw_in bw_out l = Undefined.
Proof.
  intros Hrec Hnot He.
  destruct (lookups_unrecorded q (name l) Hrec Hnot) as (Hp & Hi & Ho).
  unfold quantize_layer, quantize_parameters, quantize_activations.
  destruct (found net_part "Parameters"), (found net_part "Activations");
    try discriminate He; destruct l as [n t oq r];
    cbn [name set_type mbind outcome_bind mret outcome_ret] in *;
    rewrite ?Hp, ?Hi; reflexivity.
Qed.

(** X4.  A layer that passes a category test and is not among the recorded
    layers makes the whole edit undefined (an integer-length vector is read
    past its end) as soon as [net_part] names an aspect; in no case does the
    edit end in a reported error. *)
Theorem edit_undefined_on_unrecorded_layer (q : Quantization) (param : NetParameter)
    (layers_2_quantize net_part : string) (bw_conv bw_fc bw_in bw_out : Z)
    (i : nat) (l : LayerParameter) :
  lengths_recorded q →
  layer param !! i = Some l →
  matches_category layers_2_quantize (type l) = true →
  found net_part "Parameters" || found net_part "Activations" = true →
  name l ∉ layer_names_ q →
  EditNetDescriptionDynamicFixedPoint q param layers_2_quantize net_part
    bw_conv bw_fc bw_in bw_out = Undefined.
Proof.
  intros Hrec Hl Hm He Hnot. apply Edit_Undefined.
  intros param' (ls & Hall & _)%Edit_Done.
  destruct (Forall2_lookup_l _ _ _ _ _ Hall Hl) as (l' & _ & Hb).
  rewrite edit_layer_staged in Hb. unfold matches_category in Hm.
  destruct (matches_convolution layers_2_quantize (type l)).
  - rewrite quantize_layer_unrecorded in Hb by assumption. discriminate Hb.
  - cbn [mbind outcome_bind mret outcome_ret] in Hb. cbn [orb] in Hm.
    rewrite Hm, quantize_layer_unrecorded in Hb by assumption. discriminate Hb.
Qed.

Lemma edit_undefined_on_unrecorded_layer_witness :
  EditNetDescriptionDynamicFixedPoint ex_q
    {| state := None; layer := [ex_layer "conv9" "Convolution"]; net_rest := [] |}
    "Convolution" "Parameters" 8 (-1) (-1) (-1) = Undefined.
Proof.
  apply (edit_undefined_on_unrecorded_layer ex_q _ _ _ _ _ _ _ 0
           (ex_layer "conv9" "Convolution")); try reflexivity.
  - repeat split.
  - cbn. rewrite !elem_of_cons, elem_of_nil. intros [H|[H|[]]]; discriminate H.
Defined.

(** X5.  The edit never ends in a reported error: it returns or is undefined. *)
Theorem edit_never_fatal (q : Quantization) (param : NetParameter)
    (layers_2_quantize net_part : string) (bw_conv bw_fc bw_in bw_out : Z) :
  ¬ is_Fatal (EditNetDescriptionDynamicFixedPoint q param layers_2_quantize net_part
                bw_conv bw_fc bw_in bw_out).
Proof. apply edit_loop_not_Fatal. Qed.

Lemma with_layer_same (param : NetParameter) : with_layer (layer param) param = param.
Proof. destruct param; reflexivity. Qed.

Lemma Forall2_same {A} (R : A → A → Prop) (l : list A) :
  (∀ x, x ∈ l → R x x) → Forall2 R l l.
Proof.
  induction l as [|x l IH]; intros H; constructor.
  - apply H. left.
  - apply IH. intros y Hy. apply H. right. exact Hy.
Qed.

(** X6.  The edit returns the description it was given, unchanged, when no layer
    passes a category test, and also when [net_part] names neither
    "Parameters" nor "Activations"; no integer length is looked up then. *)
Theorem edit_nothing_to_quantize (q : Quantization) (param : NetParameter)
    (layers_2_quantize net_part : string) (bw_conv bw_fc bw_in bw_out : Z) :
  (∀ l, l ∈ layer param → matches_category layers_2_quantize (type l) = false) ∨
  found net_part "Parameters" || found net_part "Activations" = false →
  EditNetDescriptionDynamicFixedPoint q param layers_2_quantize net_part
    bw_conv bw_fc bw_in bw_out = Done param.
Proof.
  intros H. apply Edit_Done. exists (layer param).
  split; [|symmetry; apply with_layer_same].
  apply Forall2_same. intros l Hl. rewrite edit_layer_staged.
  destruct H as [Hnone|He].
  - specialize (Hnone l Hl). unfold matches_category in Hnone.
    apply orb_false_elim in Hnone as [Hc Hi].
    rewrite Hc. cbn [mbind outcome_bind mret outcome_ret]. rewrite Hi. reflexivity.
  - destruct (matches_convolution layers_2_quantize (type l));
      [rewrite quantize_layer_unedited by exact He|];
      cbn [mbind outcome_bind mret outcome_ret];
      (destruct (matches_inner_product layers_2_quantize (type l));
       [apply quantize_layer_unedited, He|reflexivity]).
Qed.

Lemma edit_nothing_to_quantize_witness :
  EditNetDescriptionDynamicFixedPoint ex_q ex_param "Pooling" "Parameters" 8 8 8 8 =
  Done ex_param.
Proof.
  apply (edit_nothing_to_quantize ex_q ex_param "Pooling" "Parameters").
  left. intros l Hl. reflexivity.
Defined.

(** X7.  The type written.  In the description the edit returns, a layer that
    passes the convolution test has the type "ConvolutionRistretto", also
    when it passes the inner-product test as well; a layer that passes the
    inner-product test only has the type "FcRistretto" (as soon as
    [net_part] names an aspect). *)
Theorem edit_type_written (q : Quantization) (param param' : NetParameter)
    (layers_2_quantize net_part : string) (bw_conv bw_fc bw_in bw_out : Z)
    (i : nat) (l : LayerParameter) :
  EditNetDescriptionDynamicFixedPoint q param layers_2_quantize net_part
    bw_conv bw_fc bw_in bw_out = Done param' →
  layer param !! i = Some l →
  matches_category layers_2_quantize (type l) = true →
  found net_part "Parameters" || found net_part "Activations" = true →
  ∃ l', layer param' !! i = Some l' ∧
    type l' = if matches_convolution layers_2_quantize (type l)
              then "ConvolutionRistretto" else "FcRistretto".
Proof.
  intros (ls & Hall & ->)%Edit_Done Hl Hm He. cbn [layer with_layer].
  destruct (Forall2_lookup_l _ _ _ _ _ Hall Hl) as (l' & Hl' & Hb).
  exists l'. split; [exact Hl'|].
  destruct (edit_layer_cases _ _ _ _ _ _ _ _ _ Hb)
    as [[Hc Hq]|[(Hc & Hi & Hq)|[Hm' _]]]; [| |congruence];
    destruct (quantize_layer_frame _ _ _ _ _ _ _ _ Hq) as (_ & _ & Hty);
    rewrite He in Hty; rewrite Hc; exact Hty.
Qed.

Lemma edit_type_written_witness :
  ∃ l', layer ex_param_quantized !! 3 = Some l' ∧
    type l' = if matches_convolution "Convolution_and_InnerProduct"
                   (type (ex_layer "fc1" "InnerProduct"))
              then "ConvolutionRistretto" else "FcRistretto".
Proof.
  apply (edit_type_written ex_q ex_param ex_param_quantized
           "Convolution_and_InnerProduct" "Parameters_and_Activations" 8 8 8 8
           3 (ex_layer "fc1" "InnerProduct")); reflexivity.
Defined.

Lemma quantize_layer_rest (q : Quantization) (net_part ty : string)
    (bw bw_in bw_out : Z) (l l' : LayerParameter) :
  quantize_layer q net_part ty bw bw_in bw_out l = Done l' →
  quantization_rest (mutable_quantization_param l') =
  quantization_rest (mutable_quantization_param l).
Proof.
  unfold quantize_layer, quantize_parameters, quantize_activations.
  destruct l as [n t oq r].
  destruct (found net_part "Parameters"), (found net_part "Activations");
    run_setters; intros H; case_calls H; injection H as <-;
    destruct oq as [[]|]; reflexivity.
Qed.

(** X8.  The edit touches the fields of the aspects [net_part] names only: an
    edit for the parameters keeps the four activation fields of every layer,
    an edit for the activations keeps its two parameter fields, and the
    quantization parameters outside these six fields are kept in all
    cases. *)
Theorem edit_keeps_other_aspect (q : Quantization) (param param' : NetParameter)
    (layers_2_quantize net_part : string) (bw_conv bw_fc bw_in bw_out : Z)
    (i : nat) (l : LayerParameter) :
  EditNetDescriptionDynamicFixedPoint q param layers_2_quantize net_part
    bw_conv bw_fc bw_in bw_out = Done param' →
  layer param !! i = Some l →
  ∃ l', layer param' !! i = Some l' ∧
    (found net_part "Parameters" = false → params_fields l' = params_fields l) ∧
    (found net_part "Activations" = false →
     activations_fields l' = activations_fields l) ∧
    quantization_rest (mutable_quantization_param l') =
    quantization_rest (mutable_quantization_param l).
Proof.
  intros Hedit Hl.
  destruct (Edit_keeps _ _ _ _ _ _ _ _ _ i l Hedit Hl) as (l' & Hl' & HP & HA).
  exists l'. repeat split; try assumption.
  apply Edit_Done in Hedit as (ls & Hall & ->). cbn [layer with_layer] in Hl'.
  destruct (Forall2_lookup_l _ _ _ _ _ Hall Hl) as (l'' & Hl'' & Hb).
  rewrite Hl' in Hl''. injection Hl'' as <-.
  destruct (edit_layer_cases _ _ _ _ _ _ _ _ _ Hb) as [[_ Hq]|[(_ & _ & Hq)|[_ ->]]];
    [exact (quantize_layer_rest _ _ _ _ _ _ _ _ Hq)
    |exact (quantize_layer_rest _ _ _ _ _ _ _ _ Hq)
    |reflexivity].
Qed.

Lemma edit_keeps_other_aspect_witness :
  ∃ l', layer ex_param_quantized !! 1 = Some l' ∧
    (found "Activations" "Parameters" = false →
     params_fields l' = params_fields ex_conv1_quantized) ∧
    (found "Activations" "Activations" = false →
     activations_fields l' = activations_fields ex_conv1_quantized) ∧
    quantization_rest (mutable_quantization_param l') =
    quantization_rest (mutable_quantization_param ex_conv1_quantized).
Proof.
  apply (edit_keeps_other_aspect ex_q ex_param_quantized ex_param_quantized
           "Convolution_and_InnerProduct" "Activations" (-1) (-1) 8 8 1
           ex_conv1_quantized); reflexivity.
Defined.

(** ** The combined candidate as a composition *)

(** Evaluation of the substring tests on the literals of the four edits. *)
Ltac eval_found :=
  try change (found "Convolution" "Convolution") with true;
  try change (found "Convolution" "InnerProduct") with false;
  try change (found "InnerProduct" "Convolution") with false;
  try change (found "InnerProduct" "InnerProduct") with true;
  try change (found "Convolution_and_InnerProduct" "Convolution") with true;
  try change (found "Convolution_and_InnerProduct" "InnerProduct") with true;
  try change (found "Parameters" "Parameters") with true;
  try change (found "Parameters" "Activations") with false;
  try change (found "Activations" "Parameters") with false;
  try change (found "Activations" "Activations") with true;
  try change (found "Parameters_and_Activations" "Parameters") with true;
  try change (found "Parameters_and_Activations" "Activations") with true;
  try change (found "ConvolutionRistretto" "Convolution") with true;
  try change (found "ConvolutionRistretto" "InnerProduct") with false;
  try change (found "ConvolutionRistretto" "FcRistretto") with false;
  try change (found "FcRistretto" "Convolution") with false;
  try change (found "FcRistretto" "InnerProduct") with false;
  try change (found "FcRistretto" "FcRistretto") with true.

Ltac combined_norm := repeat progress (run_setters; eval_found; cbn [andb orb]).

Ltac combined_step :=
  combined_norm; rewrite_eqs; combined_norm;
  match goal with
  | |- context [found ?a ?b] => destruct (found a b) eqn:?
  | |- context [GetIntegerLengthParams ?q ?n] => destruct (GetIntegerLengthParams q n) eqn:?
  | |- context [GetIntegerLengthIn ?q ?n] => destruct (GetIntegerLengthIn q n) eqn:?
  | |- context [GetIntegerLengthOut ?q ?n] => destruct (GetIntegerLengthOut q n) eqn:?
  | |- context [int_sub ?a ?b] => destruct (int_sub a b) eqn:?
  end.

(** On one layer, the edit of the combined candidate is the edit of the
    convolution candidate, then that of the inner-product candidate, then
    that of the activation candidate. *)
Lemma edit_layer_combined (q : Quantization) (bw_conv bw_fc bw_in bw_out : Z)
    (x1 x2 x3 x4 x5 x6 x7 x8 : Z) (l : LayerParameter) :
  edit_layer q "Convolution_and_InnerProduct" "Parameters_and_Activations"
    bw_conv bw_fc bw_in bw_out l =
  (l ← edit_layer q "Convolution" "Parameters" bw_conv x1 x2 x3 l;
   l ← edit_layer q "InnerProduct" "Parameters" x4 bw_fc x5 x6 l;
   edit_layer q "Convolution_and_InnerProduct" "Activations" x7 x8 bw_in bw_out l).
Proof.
  destruct l as [n t oq r]. unfold edit_layer.
  repeat combined_step; combined_norm; rewrite_eqs; combined_norm; reflexivity.
Qed.

Lemma outcome_eq {A} (o1 o2 : outcome A) :
  ¬ is_Fatal o1 → ¬ is_Fatal o2 → (∀ x, o1 = Done x ↔ o2 = Done x) → o1 = o2.
Proof.
  intros H1 H2 H. destruct o1 as [x| |], o2 as [y| |];
    try (exfalso; exact (H1 I)); try (exfalso; exact (H2 I)); try reflexivity.
  - symmetry. apply H. reflexivity.
  - pose proof (proj1 (H x) eq_refl) as E. discriminate E.
  - pose proof (proj2 (H y) eq_refl) as E. discriminate E.
Qed.

Lemma bind_not_Fatal {A B} (m : outcome A) (f : A → outcome B) :
  ¬ is_Fatal m → (∀ a, ¬ is_Fatal (f a)) → ¬ is_Fatal (m ≫= f).
Proof. intros Hm Hf. destruct m as [a| |]; cbn; auto. Qed.

Lemma Forall2_compose3 {A} (R1 R2 R3 R : A → A → Prop) :
  (∀ x z, R x z ↔ ∃ a b, R1 x a ∧ R2 a b ∧ R3 b z) →
  ∀ l k, Forall2 R l k ↔
         ∃ la lb, Forall2 R1 l la ∧ Forall2 R2 la lb ∧ Forall2 R3 lb k.
Proof.
  intros HR l. induction l as [|x l IH]; intros k; split.
  - intros H. inversion H; subst. exists [], []. repeat split; constructor.
  - intros (la & lb & H1 & H2 & H3).
    inversion H1; subst. inversion H2; subst. inversion H3; subst. constructor.
  - intros H. inversion H as [|? z ? k' Hxz Hlk]; subst.
    apply HR in Hxz as (a & b & Ha & Hb & Hz).
    apply IH in Hlk as (la & lb & Hla & Hlb & Hk).
    exists (a :: la), (b :: lb). repeat split; constructor; assumption.
  - intros (la & lb & H1 & H2 & H3).
    inversion H1 as [|? a ? la' Ha Hla]; subst.
    inversion H2 as [|? b ? lb' Hb Hlb]; subst.
    inversion H3 as [|? z ? k' Hz Hk]; subst.
    constructor.
    + apply HR. exists a, b. auto.
    + apply IH. exists la', lb'. auto.
Qed.

(** X9.  The description of the combined candidate is what the three edits of
    the single candidates give one after the other: the convolution
    parameters, then the inner-product parameters, then the activations of
    both.  The arguments the single edits do not use ([-1] in the code) can
    be anything. *)
Theorem combined_edit_is_composition (q : Quantization) (param : NetParameter)
    (bw_conv bw_fc bw_in bw_out : Z) (x1 x2 x3 x4 x5 x6 x7 x8 : Z) :
  EditNetDescriptionDynamicFixedPoint q param
    "Convolution_and_InnerProduct" "Parameters_and_Activations"
    bw_conv bw_fc bw_in bw_out =
  (param ← EditNetDescriptionDynamicFixedPoint q param
             "Convolution" "Parameters" bw_conv x1 x2 x3;
   param ← EditNetDescriptionDynamicFixedPoint q param
             "InnerProduct" "Parameters" x4 bw_fc x5 x6;
   EditNetDescriptionDynamicFixedPoint q param
     "Convolution_and_InnerProduct" "Activations" x7 x8 bw_in bw_out).
Proof.
  apply outcome_eq.
  - apply edit_loop_not_Fatal.
  - apply bind_not_Fatal; [apply edit_loop_not_Fatal|intros p1].
    apply bind_not_Fatal; [apply edit_loop_not_Fatal|intros p2].
    apply edit_loop_not_Fatal.
  - intros param'.
    assert (Hpt : ∀ l l',
      edit_layer q "Convolution_and_InnerProduct" "Parameters_and_Activations"
        bw_conv bw_fc bw_in bw_out l = Done l' ↔
      ∃ a b, edit_layer q "Convolution" "Parameters" bw_conv x1 x2 x3 l = Done a ∧
             edit_layer q "InnerProduct" "Parameters" x4 bw_fc x5 x6 a = Done b ∧
             edit_layer q "Convolution_and_InnerProduct" "Activations"
               x7 x8 bw_in bw_out b = Done l').
    { intros l l'.
      rewrite (edit_layer_combined q bw_conv bw_fc bw_in bw_out x1 x2 x3 x4 x5 x6 x7 x8).
      rewrite bind_Done. split.
      - intros (a & Ha & (b & Hb & Hc)%bind_Done). exists a, b. auto.
      - intros (a & b & Ha & Hb & Hc). exists a. split; [exact Ha|].
        apply bind_Done. exists b. auto. }
    pose proof (Forall2_compose3 _ _ _ _ Hpt) as HF. split.
    + intros (ls & (la & lb & H1 & H2 & H3)%HF & ->)%Edit_Done.
      apply bind_Done. exists (with_layer la param). split.
      { apply Edit_Done. exists la. auto. }
      apply bind_Done. exists (with_layer lb (with_layer la param)). split.
      { apply Edit_Done. exists lb. auto. }
      apply Edit_Done. exists ls. auto.
    + intros (p1 & (la & H1 & ->)%Edit_Done & H)%bind_Done.
      apply bind_Done in H as (p2 & (lb & H2 & ->)%Edit_Done & H).
      apply Edit_Done in H as (ls & H3 & ->).
      apply Edit_Done. exists ls. split; [|reflexivity].
      apply HF. exists la, lb. auto.
Qed.

(** ** More on RunForwardBatches (lines 96-149) *)

Lemma forward_batches_overrun (eng : Engine) (net : Net) (do_stats : bool)
    (n i k : nat) (w : world) :
  i ≤ k < i + n → 1 ≤ k →
  same_score_count eng net k →
  length (scores_of (Forward eng net 0)) < length (scores_of (Forward eng net k)) →
  (forward_batches eng net do_stats n i (test_score_after eng net i) w).2 = Undefined.
Proof.
  intros Hk Hk1 Hsame Hmore. revert i w Hk.
  induction n as [|n IH]; intros i w Hk; [lia|].
  cbn [forward_batches].
  destruct (decide (i = k)) as [->|Hne].
  - rewrite accumulate_result_overrun.
    + destruct do_stats; run_step; reflexivity.
    + lia.
    + rewrite (length_test_score_after eng net k) by (auto; lia). simpl. lia.
    + lia.
  - assert (Hacc : accumulate_result i (Forward eng net i) 0
                     (test_score_after eng net i) =
                   Done (length (scores_of (Forward eng net i)),
                         test_score_after eng net (S i))).
    { destruct (decide (i = 0)) as [->|Hi0].
      - rewrite accumulate_result_first. reflexivity.
      - rewrite accumulate_result_later.
        + cbn [test_score_after].
          destruct (decide (i = 0)); [contradiction|reflexivity].
        + exact Hi0.
        + rewrite (length_test_score_after eng net k) by (auto; lia).
          rewrite (Hsame i) by lia. simpl. lia. }
    rewrite Hacc. destruct do_stats; run_step; apply IH; lia.
Qed.

(** X10.  The scores of the first batch fix the size of [test_score].  A later
    batch with more scores than the first is added past the end of the
    vector: when batch [k] is the first such batch, the call is undefined. *)
Theorem later_batch_with_more_scores_is_undefined (eng : Engine) (net : Net)
    (do_stats : bool) (iterations score_number : Z) (k : nat) (w : world) :
  1 ≤ k < Z.to_nat iterations →
  same_score_count eng net k →
  length (scores_of (Forward eng net 0)) < length (scores_of (Forward eng net k)) →
  (RunForwardBatches eng iterations net do_stats score_number w).2 = Undefined.
Proof.
  intros Hk Hsame Hmore. unfold RunForwardBatches.
  pose proof (forward_batches_overrun eng net do_stats (Z.to_nat iterations) 0 k w
                ltac:(lia) ltac:(lia) Hsame Hmore) as H.
  cbn [test_score_after] in H. run_step.
  destruct (forward_batches eng net do_stats (Z.to_nat iterations) 0 [] w)
    as [w1 o]. cbn [snd] in H. subst o. reflexivity.
Qed.

Lemma later_batch_with_more_scores_is_undefined_witness :
  (RunForwardBatches ex_eng_growing 3 ex_net false 0
     (ex_world "dynamic_fixed_point" 3)).2 = Undefined.
Proof.
  apply (later_batch_with_more_scores_is_undefined ex_eng_growing ex_net false 3 0 1).
  - lia.
  - intros i Hi. replace i with 0 by lia. reflexivity.
  - simpl. lia.
Defined.

(** X11.  A score number that is not the position of a score of the first batch
    (negative, or too large) makes the call undefined after all the passes
    have run: [test_score] is read outside its bounds. *)
Theorem score_number_out_of_range_is_undefined (eng : Engine) (net : Net)
    (do_stats : bool) (iterations score_number : Z) (w : world) :
  (1 ≤ iterations)%Z →
  same_score_count eng net (Z.to_nat iterations) →
  (score_number < 0 ∨
   Z.of_nat (length (scores_of (Forward eng net 0))) ≤ score_number)%Z →
  RunForwardBatches eng iterations net do_stats score_number w =
  ({| this := statistics_after eng net do_stats (Z.to_nat iterations) 0 (this w);
      trace := trace w ++ batch_events net do_stats (Z.to_nat iterations) 0 |},
   Undefined).
Proof.
  intros Hit Hsame Hsn. unfold RunForwardBatches.
  change (@nil R) with (test_score_after eng net 0).
  run_step. rewrite forward_batches_spec by exact Hsame. run_step.
  unfold vec_at_int. destruct (decide (0 ≤ score_number)%Z) as [Hnn|]; [|reflexivity].
  rewrite vec_at_ge; [reflexivity|].
  rewrite (length_test_score_after eng net (Z.to_nat iterations)) by (auto; lia).
  lia.
Qed.

Lemma score_number_out_of_range_is_undefined_witness :
  RunForwardBatches ex_eng 2 ex_net false 3 (ex_world "dynamic_fixed_point" 2) =
  ({| this := statistics_after ex_eng ex_net false (Z.to_nat 2) 0
                (this (ex_world "dynamic_fixed_point" 2));
      trace := trace (ex_world "dynamic_fixed_point" 2) ++
               batch_events ex_net false (Z.to_nat 2) 0 |},
   Undefined).
Proof.
  apply (score_number_out_of_range_is_undefined ex_eng ex_net false 2 3).
  - lia.
  - intros i _. reflexivity.
  - right. simpl. lia.
Defined.

Lemma batch_events_false (net : Net) (n i : nat) :
  batch_events net false n i = EvForward net <$> seq i n.
Proof.
  revert i. induction n as [|n IH]; intros i; [reflexivity|].
  cbn. f_equal. apply IH.
Qed.

Lemma batch_events_true (net : Net) (n i : nat) :
  batch_events net true n i =
  concat ((λ i, [EvForward net i; EvRangeInLayers net i]) <$> seq i n).
Proof.
  revert i. induction n as [|n IH]; intros i; [reflexivity|].
  cbn. rewrite IH. reflexivity.
Qed.

(** X12.  Scoring a candidate: a call without statistics leaves the object as it
    was, whatever the outcome of the call, and does nothing to the outside
    but passes of the net it was given, numbered from 0, at most
    [iterations] of them. *)
Theorem scoring_leaves_object_alone (eng : Engine) (net : Net)
    (iterations score_number : Z) (w : world) :
  this (RunForwardBatches eng iterations net false score_number w).1 = this w ∧
  ∃ k, k ≤ Z.to_nat iterations ∧
    trace (RunForwardBatches eng iterations net false score_number w).1 =
    trace w ++ (EvForward net <$> seq 0 k).
Proof.
  destruct (RunForwardBatches_frame eng net false iterations score_number w)
    as (k & Hk & Htr & Hthis).
  split; [apply Hthis; reflexivity|].
  exists k. split; [exact Hk|]. rewrite Htr, batch_events_false. reflexivity.
Qed.

(** X13.  A baseline run that returns has run exactly [iterations] passes, each
    followed by one collection of statistics, in order; the trimming mode,
    the paths, the bit-widths, the number of iterations and the integer
    lengths of the object are as before. *)
Theorem baseline_run_collects_statistics (eng : Engine) (net : Net)
    (iterations score_number : Z) (w : world) :
  (1 ≤ iterations)%Z →
  same_score_count eng net (Z.to_nat iterations) →
  (0 ≤ score_number < Z.of_nat (length (scores_of (Forward eng net 0))))%Z →
  let w' := (RunForwardBatches eng iterations net true score_number w).1 in
  trace w' =
    trace w ++
    concat ((λ i, [EvForward net i; EvRangeInLayers net i]) <$>
            seq 0 (Z.to_nat iterations)) ∧
  this w' = statistics_after eng net true (Z.to_nat iterations) 0 (this w) ∧
  model_ (this w') = model_ (this w) ∧ weights_ (this w') = weights_ (this w) ∧
  model_quantized_ (this w') = model_quantized_ (this w) ∧
  iterations_ (this w') = iterations_ (this w) ∧
  trimming_mode_ (this w') = trimming_mode_ (this w) ∧
  bitwidth_weights_ (this w') = bitwidth_weights_ (this w) ∧
  bitwidth_activations_ (this w') = bitwidth_activations_ (this w) ∧
  il_in_ (this w') = il_in_ (this w) ∧ il_out_ (this w') = il_out_ (this w) ∧
  il_params_ (this w') = il_params_ (this w).
Proof.
  intros Hit Hsame Hsn w'. unfold w'.
  rewrite RunForwardBatches_spec by assumption. cbn [fst this trace].
  pose proof (statistics_after_frame eng net true (Z.to_nat iterations) 0 (this w))
    as (? & ? & ? & ? & ? & ? & ? & ? & ? & ? & ?).
  rewrite batch_events_true. repeat split; try assumption; try reflexivity.
Qed.

Lemma baseline_run_collects_statistics_witness :
  let w := ex_world "dynamic_fixed_point" 2 in
  let w' := (RunForwardBatches ex_eng 2 ex_net true 0 w).1 in
  trace w' =
    trace w ++
    concat ((λ i, [EvForward ex_net i; EvRangeInLayers ex_net i]) <$>
            seq 0 (Z.to_nat 2)) ∧
  this w' = statistics_after ex_eng ex_net true (Z.to_nat 2) 0 (this w) ∧
  model_ (this w') = model_ (this w) ∧ weights_ (this w') = weights_ (this w) ∧
  model_quantized_ (this w') = model_quantized_ (this w) ∧
  iterations_ (this w') = iterations_ (this w) ∧
  trimming_mode_ (this w') = trimming_mode_ (this w) ∧
  bitwidth_weights_ (this w') = bitwidth_weights_ (this w) ∧
  bitwidth_activations_ (this w') = bitwidth_activations_ (this w) ∧
  il_in_ (this w') = il_in_ (this w) ∧ il_out_ (this w') = il_out_ (this w) ∧
  il_params_ (this w') = il_params_ (this w).
Proof.
  apply (baseline_run_collects_statistics ex_eng ex_net 2 0
           (ex_world "dynamic_fixed_point" 2)).
  - lia.
  - intros i _. reflexivity.
  - simpl. lia.
Defined.

(** ** Configuration errors of QuantizeNet (lines 32-34, 53-94) *)

(** X14.  An output path that cannot be opened for writing is reported first:
    the run ends in the fatal error "Missing write permissions" and has done
    nothing. *)
Theorem unwritable_output_reported_first (eng : Engine) (w : world) :
  ofstream_good eng (model_quantized_ (this w)) = false →
  QuantizeNet eng w = (w, Fatal "Missing write permissions").
Proof.
  intros Hbad. unfold QuantizeNet, CheckWritePermissions. run_step.
  rewrite Hbad. run_step. reflexivity.
Qed.

Lemma unwritable_output_reported_first_witness :
  QuantizeNet ex_eng_readonly (ex_world "dynamic_fixed_point" 2) =
  (ex_world "dynamic_fixed_point" 2, Fatal "Missing write permissions").
Proof. apply unwritable_output_reported_first. reflexivity. Defined.

Lemma cast_all_Fatal (eng : Engine) (strings : list string) (piece : string) :
  piece ∈ strings → lexical_cast_int eng piece = None →
  cast_all eng strings = Fatal "bad lexical cast".
Proof.
  intros Hin Hnone. induction strings as [|s strings IH]; [inversion Hin|].
  cbn [cast_all]. destruct (lexical_cast_int eng s) as [id|] eqn:Hs; [|reflexivity].
  rewrite IH; [reflexivity|].
  apply elem_of_cons in Hin as [->|Hin]; [congruence|exact Hin].
Qed.

(** X15.  A device list that cannot be used is reported before any net is built:
    when [gpus_] is "all" and the devices cannot be counted, or when it is a
    list one piece of which (between two commas) is not an integer, the run
    ends in a fatal error after the write probe, and has done nothing
    else. *)
Theorem unusable_devices_reported_before_any_net (eng : Engine) (w : world) :
  ofstream_good eng (model_quantized_ (this w)) = true →
  (gpus_ (this w) = "all" ∧ cudaGetDeviceCount eng = None) ∨
  (gpus_ (this w) ≠ "all" ∧ gpus_ (this w) ≠ "" ∧
   ∃ piece, piece ∈ split_commas (gpus_ (this w)) ∧
            lexical_cast_int eng piece = None) →
  ∃ msg,
    QuantizeNet eng w =
    ({| this := this w;
        trace := trace w ++ [EvProbeRemoved (model_quantized_ (this w))] |},
     Fatal msg).
Proof.
  intros Hgood Hbad.
  assert (Hids : ∃ msg, gpu_ids eng (gpus_ (this w)) = Fatal msg).
  { unfold gpu_ids. destruct Hbad as [[Hall Hcount]|(Hnall & Hne & piece & Hin & Hnone)].
    - destruct (decide (gpus_ (this w) = "all")); [|contradiction].
      rewrite Hcount. eexists; reflexivity.
    - destruct (decide (gpus_ (this w) = "all")); [contradiction|].
      destruct (decide (String.length (gpus_ (this w)) ≠ 0)) as [|Hz].
      + rewrite (cast_all_Fatal eng _ piece Hin Hnone). eexists; reflexivity.
      + exfalso. apply Hz. intros Hlen. apply Hne.
        destruct (gpus_ (this w)); [reflexivity|discriminate Hlen]. }
  destruct Hids as [msg Hids]. exists msg.
  unfold QuantizeNet, CheckWritePermissions, SetGpu. run_step.
  rewrite Hgood. run_step. rewrite Hids. reflexivity.
Qed.

Lemma unusable_devices_reported_before_any_net_witness :
  ∃ msg,
    QuantizeNet ex_eng ex_world_gpus =
    ({| this := this ex_world_gpus;
        trace := trace ex_world_gpus ++
                 [EvProbeRemoved (model_quantized_ (this ex_world_gpus))] |},
     Fatal msg).
Proof.
  apply (unusable_devices_reported_before_any_net ex_eng ex_world_gpus).
  - reflexivity.
  - right. split; [discriminate|]. split; [discriminate|].
    exists "x". split; [|reflexivity].
    cbn. rewrite !elem_of_cons. auto.
Defined.

(** X16.  With the trimming mode "dynamic_fixed_point", a run whose baseline
    passes return goes on with [Quantize2DynamicFixedPoint] on the object
    that holds the statistics of the baseline passes and the baseline
    score. *)
Theorem quantization_follows_baseline (eng : Engine) (w : world)
    (gpus : list Z) (base : NetParameter) :
  let q := this w in
  let net := {| net_param := set_phase TEST base; net_weights := Some (weights_ q) |} in
  let n := Z.to_nat (iterations_ q) in
  ofstream_good eng (model_quantized_ q) = true →
  gpu_ids eng (gpus_ q) = Done gpus →
  ReadNetParamsFromTextFileOrDie eng (model_ q) empty_net_param = Some base →
  trimming_mode_ q = "dynamic_fixed_point" →
  (1 ≤ iterations_ q)%Z →
  same_score_count eng net n →
  0 < length (scores_of (Forward eng net 0)) →
  QuantizeNet eng w =
  Quantize2DynamicFixedPoint eng
    {| this := set_test_score_baseline
                 (added_scores eng net 0 n / IZR (iterations_ q))%R
                 (statistics_after eng net true n 0 q);
       trace := trace w ++
                ([EvProbeRemoved (model_quantized_ q)] ++ gpu_events gpus ++
                 [EvReadNetParams (model_ q); EvNewNet (set_phase TEST base);
                  EvCopyTrainedLayersFrom (weights_ q)]) ++
                batch_events net true n 0 ++ [EvDeleteNet net] |}.
Proof.
  intros q net n Hgood Hgpus Hread Hmode Hit Hsame Hlen.
  pose proof (statistics_after_frame eng net true n 0 q)
    as (_ & _ & _ & _ & Hm & _).
  unfold QuantizeNet, CheckWritePermissions, SetGpu, new_Net_of_file,
    read_net_params, new_Net, CopyTrainedLayersFrom.
  unfold n, net, q in *. run_step. rewrite Hgood. run_step. rewrite Hgpus.
  destruct gpus; run_step; rewrite Hread; run_step;
    rewrite RunForwardBatches_spec
      by (try assumption; unfold default_score_number; lia);
    run_step; cbn [trimming_mode_ set_test_score_baseline]; rewrite Hm;
    (case_decide; [|contradiction]);
    unfold default_score_number; cbn [gpu_events app Z.to_nat];
    rewrite <- ?app_assoc; reflexivity.
Qed.

Lemma quantization_follows_baseline_witness :
  let w := ex_world "dynamic_fixed_point" 2 in
  QuantizeNet ex_eng w =
  Quantize2DynamicFixedPoint ex_eng
    {| this := set_test_score_baseline
                 (added_scores ex_eng ex_net 0 (Z.to_nat 2) / IZR 2)%R
                 (statistics_after ex_eng ex_net true (Z.to_nat 2) 0 (this w));
       trace := trace w ++
                ([EvProbeRemoved (model_quantized_ (this w))] ++ gpu_events [] ++
                 [EvReadNetParams (model_ (this w)); EvNewNet (set_phase TEST ex_param);
                  EvCopyTrainedLayersFrom (weights_ (this w))]) ++
                batch_events ex_net true (Z.to_nat 2) 0 ++ [EvDeleteNet ex_net] |}.
Proof.
  apply (quantization_follows_baseline ex_eng (ex_world "dynamic_fixed_point" 2)
           [] ex_param).
  - reflexivity.
  - reflexivity.
  - reflexivity.
  - reflexivity.
  - simpl. lia.
  - intros i _. reflexivity.
  - simpl. lia.
Defined.

(** ** The loop of the integer lengths (lines 156-160) *)

Lemma integer_lengths_at_Done (q q' : Quantization) (i : nat) :
  integer_lengths_at q i = Done q' →
  ∃ mi mo mp ki ko kp,
    max_in_ q !! i = Some mi ∧ max_out_ q !! i = Some mo ∧
    max_params_ q !! i = Some mp ∧
    il_in_of mi = Done ki ∧ il_out_of mo = Done ko ∧ il_params_of mp = Done kp ∧
    q' = push_il_params kp (push_il_out ko (push_il_in ki q)).
Proof.
  unfold integer_lengths_at, vec_at. intros H.
  destruct (max_in_ q !! i) as [mi|]; [|discriminate H].
  cbn [mbind outcome_bind] in H.
  destruct (il_in_of mi) as [ki| |] eqn:Hi; try discriminate H.
  cbn [mbind outcome_bind max_out_ push_il_in] in H.
  destruct (max_out_ q !! i) as [mo|]; [|discriminate H].
  cbn [mbind outcome_bind] in H.
  destruct (il_out_of mo) as [ko| |] eqn:Ho; try discriminate H.
  cbn [mbind outcome_bind max_params_ push_il_out push_il_in] in H.
  destruct (max_params_ q !! i) as [mp|]; [|discriminate H].
  cbn [mbind outcome_bind] in H.
  destruct (il_params_of mp) as [kp| |] eqn:Hp; try discriminate H.
  injection H as <-. exists mi, mo, mp, ki, ko, kp. repeat split; assumption.
Qed.

Lemma integer_lengths_loop_Done (n i : nat) (q q1 : Quantization) :
  integer_lengths_loop n i q = Done q1 →
  ∃ li lo lp,
    il_in_ q1 = il_in_ q ++ li ∧ il_out_ q1 = il_out_ q ++ lo ∧
    il_params_ q1 = il_params_ q ++ lp ∧
    Forall2 (λ m k, il_in_of m = Done k) (take n (drop i (max_in_ q))) li ∧
    Forall2 (λ m k, il_out_of m = Done k) (take n (drop i (max_out_ q))) lo ∧
    Forall2 (λ m k, il_params_of m = Done k) (take n (drop i (max_params_ q))) lp ∧
    length li = n ∧ length lo = n ∧ length lp = n.
Proof.
  revert i q. induction n as [|n IH]; intros i q; cbn [integer_lengths_loop].
  - intros [= <-]. exists [], [], []. rewrite !app_nil_r.
    repeat split; constructor.
  - destruct (integer_lengths_at q i) as [q'| |] eqn:Hat; try discriminate.
    cbn [mbind outcome_bind]. intros Hloop.
    apply integer_lengths_at_Done in Hat
      as (mi & mo & mp & ki & ko & kp & Hmi & Hmo & Hmp & Hki & Hko & Hkp & ->).
    apply IH in Hloop
      as (li & lo & lp & Hi & Ho & Hp & Fi & Fo & Fp & Li & Lo & Lp).
    cbn [il_in_ il_out_ il_params_ max_in_ max_out_ max_params_
         push_il_in push_il_out push_il_params] in *.
    exists (ki :: li), (ko :: lo), (kp :: lp).
    rewrite (drop_S _ _ _ Hmi), (drop_S _ _ _ Hmo), (drop_S _ _ _ Hmp).
    rewrite Hi, Ho, Hp, <- !app_assoc. cbn [take length app].
    repeat split; try (constructor; assumption); lia.
Qed.

(** X17.  A run of the loop that returns appends to each of the three vectors one
    integer length per recorded layer, computed from the recorded maximum of
    that layer, and changes nothing else of the statistics; on an object
    whose three vectors are empty it leaves one integer length of each kind
    per recorded name.  The vectors are never cleared: a second run appends
    again. *)
Theorem integer_lengths_appended (q q1 : Quantization) :
  integer_lengths q = Done q1 →
  let n := length (layer_names_ q) in
  ∃ li lo lp,
    il_in_ q1 = il_in_ q ++ li ∧ il_out_ q1 = il_out_ q ++ lo ∧
    il_params_ q1 = il_params_ q ++ lp ∧
    Forall2 (λ m k, il_in_of m = Done k) (take n (max_in_ q)) li ∧
    Forall2 (λ m k, il_out_of m = Done k) (take n (max_out_ q)) lo ∧
    Forall2 (λ m k, il_params_of m = Done k) (take n (max_params_ q)) lp ∧
    length li = n ∧ length lo = n ∧ length lp = n ∧
    layer_names_ q1 = layer_names_ q ∧
    (il_in_ q = [] → il_out_ q = [] → il_params_ q = [] → lengths_recorded q1).
Proof.
  intros H n.
  destruct (integer_lengths_frame _ _ H) as (_ & _ & _ & _ & _ & _ & Hnames & _).
  apply integer_lengths_loop_Done in H
    as (li & lo & lp & Hi & Ho & Hp & Fi & Fo & Fp & Li & Lo & Lp).
  rewrite !drop_0 in *. exists li, lo, lp. fold n in Li, Lo, Lp, Fi, Fo, Fp.
  repeat split; try assumption;
    rewrite ?Hi, ?Ho, ?Hp, Hnames; fold n;
    match goal with E : _ = [] |- _ => rewrite E end; cbn [app]; assumption.
Qed.

Lemma integer_lengths_appended_witness :
  let n := length (layer_names_ ex_measured) in
  ∃ li lo lp,
    il_in_ ex_lengths = il_in_ ex_measured ++ li ∧
    il_out_ ex_lengths = il_out_ ex_measured ++ lo ∧
    il_params_ ex_lengths = il_params_ ex_measured ++ lp ∧
    Forall2 (λ m k, il_in_of m = Done k) (take n (max_in_ ex_measured)) li ∧
    Forall2 (λ m k, il_out_of m = Done k) (take n (max_out_ ex_measured)) lo ∧
    Forall2 (λ m k, il_params_of m = Done k) (take n (max_params_ ex_measured)) lp ∧
    length li = n ∧ length lo = n ∧ length lp = n ∧
    layer_names_ ex_lengths = layer_names_ ex_measured ∧
    (il_in_ ex_measured = [] → il_out_ ex_measured = [] →
     il_params_ ex_measured = [] → lengths_recorded ex_lengths).
Proof. apply (integer_lengths_appended ex_measured ex_lengths ex_integer_lengths). Defined.







(** ** The whole of Quantize2DynamicFixedPoint (lines 151-258) *)

Lemma forward_batches_Done_trace (eng : Engine) (net : Net) (do_stats : bool)
    (n i : nat) (test_score ts' : list R) (w w' : world) :
  forward_batches eng net do_stats n i test_score w = (w', Done ts') →
  trace w' = trace w ++ batch_events net do_stats n i.
Proof.
  revert i test_score w. induction n as [|n IH]; intros i ts w.
  - cbn. intros [= <- _]. rewrite app_nil_r. reflexivity.
  - cbn [forward_batches batch_events].
    destruct (accumulate_result i (Forward eng net i) 0 ts) as [[idx ts1]| |];
      destruct do_stats; run_step; try (intros [= _ E]; discriminate E);
      intros H; apply IH in H; rewrite H; cbn [trace];
      rewrite <- ?app_assoc; reflexivity.
Qed.

Lemma RunForwardBatches_Done_trace (eng : Engine) (net : Net)
    (iterations score_number : Z) (acc : R) (w w' : world) :
  RunForwardBatches eng iterations net false score_number w = (w', Done acc) →
  this w' = this w ∧
  trace w' = trace w ++ (EvForward net <$> seq 0 (Z.to_nat iterations)).
Proof.
  intros H.
  destruct (RunForwardBatches_frame eng net false iterations score_number w)
    as (_ & _ & _ & Hthis).
  rewrite H in Hthis. split; [apply Hthis; reflexivity|].
  unfold RunForwardBatches in H. revert H. run_step.
  destruct (forward_batches eng net false (Z.to_nat iterations) 0 [] w)
    as [w1 [ts| |]] eqn:Hfb; try (intros [= _ E]; discriminate E).
  destruct (vec_at_int ts score_number); run_step;
    try (intros [= _ E]; discriminate E).
  intros [= <- _]. rewrite (forward_batches_Done_trace _ _ _ _ _ _ _ _ _ Hfb).
  rewrite batch_events_false. reflexivity.
Qed.

(** One scoring call of a run that returns. *)
Ltac score_candidate :=
  match goal with
  | |- context [RunForwardBatches ?e ?it ?net false ?sn ?w0] =>
      let Hr := fresh "Hr" in
      let Htr := fresh "Htr" in
      let Hthis := fresh "Hthis" in
      destruct (RunForwardBatches e it net false sn w0) as [? [?| |]] eqn:Hr;
      run_step; [|intros; discriminate ..];
      apply RunForwardBatches_Done_trace in Hr as [Hthis Htr];
      cbn [this trace] in Htr, Hthis; rewrite ?Hthis, ?Htr
  end.

(** X19.  A run that returns is the strict sequence of the code: the integer
    lengths, then the three single candidates and the combined candidate,
    each read anew, edited, built, given the weights, scored over
    [iterations] passes and deleted; then the combined description is
    written, its state released, to the output path.  The bit-widths stored
    in the object are the configured ones. *)
Theorem quantization_run_in_order (eng : Engine) (w : world) (base : NetParameter) :
  (∀ old, ReadNetParamsFromTextFileOrDie eng (model_ (this w)) old = Some base) →
  (Quantize2DynamicFixedPoint eng w).2 = Done tt →
  ∃ q1 c1 c2 c3 c4,
    integer_lengths (this w) = Done q1 ∧
    nets_built (trace (Quantize2DynamicFixedPoint eng w).1) =
      nets_built (trace w) ++ [c1; c2; c3; c4] ∧
    trace (Quantize2DynamicFixedPoint eng w).1 =
      trace w ++ candidate_events q1 c1 ++ candidate_events q1 c2 ++
      candidate_events q1 c3 ++ candidate_events q1 c4 ++
      [EvWriteProtoToTextFile (release_state c4) (model_quantized_ (this w))] ∧
    state (release_state c4) = None ∧ layer (release_state c4) = layer c4 ∧
    this (Quantize2DynamicFixedPoint eng w).1 =
      set_bit_widths (bitwidth_weights_ (this w)) (bitwidth_weights_ (this w))
        (bitwidth_activations_ (this w)) q1.
Proof.
  intros Hread. unfold candidate_events.
  unfold Quantize2DynamicFixedPoint, read_net_params, new_Net, CopyTrainedLayersFrom.
  run_step.
  destruct (integer_lengths (this w)) as [q1| |] eqn:Hil; run_step;
    [|intros; discriminate ..].
  destruct (integer_lengths_frame _ _ Hil)
    as (Hmodel & Hweights & Hout & Hit & Hbww & Hbwa & _).
  rewrite ?Hmodel, ?Hbww, ?Hbwa, ?Hout, ?Hread. run_step.
  run_edit c1 He1. score_candidate.
  rewrite ?Hmodel, ?Hbww, ?Hbwa, ?Hout, ?Hread. run_step.
  run_edit c2 He2. score_candidate.
  rewrite ?Hmodel, ?Hbww, ?Hbwa, ?Hout, ?Hread. run_step.
  run_edit c3 He3. score_candidate.
  unfold vec_at. cbn [lookup list_lookup app]. run_step.
  cbn [model_ set_bit_widths bw_conv_params_ bw_fc_params_ bw_in_ bw_out_ weights_
       iterations_ model_quantized_].
  rewrite ?Hmodel, ?Hbww, ?Hbwa, ?Hout, ?Hread. run_step.
  run_edit c4 He4. score_candidate.
  intros _. exists q1, c1, c2, c3, c4.
  rewrite ?Hout, ?Hmodel. repeat split.
  - rewrite !nets_built_app. cbn [nets_built app].
    assert (Hnone : ∀ net k, nets_built (EvForward net <$> seq 0 k) = []).
    { intros net k. rewrite <- batch_events_false. apply nets_built_batch_events. }
    rewrite !Hnone. cbn. rewrite !app_nil_r, <- !app_assoc. reflexivity.
  - cbn [app]. rewrite <- !app_assoc. cbn [app]. reflexivity.
Qed.

Lemma quantization_run_in_order_witness :
  ∃ q1 c1 c2 c3 c4,
    integer_lengths (this ex_measured_world) = Done q1 ∧
    nets_built (trace (Quantize2DynamicFixedPoint ex_eng ex_measured_world).1) =
      nets_built (trace ex_measured_world) ++ [c1; c2; c3; c4] ∧
    trace (Quantize2DynamicFixedPoint ex_eng ex_measured_world).1 =
      trace ex_measured_world ++ candidate_events q1 c1 ++ candidate_events q1 c2 ++
      candidate_events q1 c3 ++ candidate_events q1 c4 ++
      [EvWriteProtoToTextFile (release_state c4)
         (model_quantized_ (this ex_measured_world))] ∧
    state (release_state c4) = None ∧ layer (release_state c4) = layer c4 ∧
    this (Quantize2DynamicFixedPoint ex_eng ex_measured_world).1 =
      set_bit_widths (bitwidth_weights_ (this ex_measured_world))
        (bitwidth_weights_ (this ex_measured_world))
        (bitwidth_activations_ (this ex_measured_world)) q1.
Proof.
  apply (quantization_run_in_order ex_eng ex_measured_world ex_param).
  - intros old. reflexivity.
  - exact ex_Quantize2_returns.
Defined.
